(** * nixos-upgrade: the deferred signal registry, the subprocess
      supervisor and the privileged channel

    A shallow embedding of [src/lib/synsignals.py] and of the supervision
    and channel methods of [CliProgram] in [src/lib/nixos-upgrade.py].

    Python module globals and the interpreter's signal state become the
    fields of one explicit state record that every function threads;
    every call into the [signal] module and every handler invocation is
    appended to a trace, so that "what was called, and in which order" is
    a statement about a list.  An operation returns the new state together
    with an outcome: it returns, it raises, or the process is gone. *)

From Stdlib Require Import ZArith List String Ascii Bool Lia.
From stdpp Require Import gmap strings list.

Local Open Scope Z_scope.

(* ===================================================================== *)
(** * synsignals.py *)
(* ===================================================================== *)

Module Synsignals.

(** ** Values *)

(** What [signal.getsignal] can return besides [None], which is also what
    a caller can put in the mapping given to [set]: the two special
    dispositions, the interpreter's own SIGINT handler, this module's
    deferring handler, or an application callable (opaque, named by a
    number). *)
Inductive Handler : Type :=
| SIG_DFL
| SIG_IGN
| default_int_handler
| _register_signal
| Callable (id : nat).

#[global] Instance Handler_eq_dec : EqDecision Handler.
Proof. solve_decision. Defined.

(** The [frame] argument of a handler: an opaque object. *)
Definition Frame := nat.

(** Linux numbers of the two signals the AUTO policy names. *)
Definition SIGINT : Z := 2.
Definition SIGPIPE : Z := 13.

Inductive How := SIG_BLOCK | SIG_UNBLOCK.

(** Calls into the [signal] module and handler invocations, in program
    order. *)
Inductive Event : Type :=
| EvSigmask (how : How) (sigs : list Z)     (* signal.pthread_sigmask *)
| EvSignal (signum : Z) (h : Handler)       (* signal.signal *)
| EvRaise (signum : Z)                      (* signal.raise_signal *)
| EvCall (h : Handler) (signum : Z) (frame : Frame). (* handler(signum, frame) *)

#[global] Instance How_eq_dec : EqDecision How.
Proof. solve_decision. Defined.
#[global] Instance Event_eq_dec : EqDecision Event.
Proof. solve_decision. Defined.

Inductive Exn := ValueError | TypeError | KeyError | KeyboardInterrupt | HandlerError.

(** How a call ends.  [Killed s]: the default action of signal [s] ended
    the process.  [Diverges]: the [while] loop of [handle] never ends. *)
Inductive Outcome (A : Type) : Type :=
| Ret (a : A)
| Raise (e : Exn)
| Killed (signum : Z)
| Diverges.
Arguments Ret {A} a.
Arguments Raise {A} e.
Arguments Killed {A} signum.
Arguments Diverges {A}.

(** The kernel's default action for a signal. *)
Inductive Action := Term | Core | Ign | Stop | Cont.

Definition ends_process (a : Action) : bool :=
  match a with Term | Core => true | _ => false end.

(** How a call of an application callable ends. *)
Inductive CallResult := Returns | Raises.

(** ** State *)

(** The four module globals, then the process's signal state (the
    dispositions as [signal.getsignal] reports them, [None] included as a
    missing key, and the signal mask), then the trace. *)
Record State : Type := mkState {
  _signals : option (gmap Z (option Handler));
  _signums : option (list Z);
  _pending_signals : list (Z * Frame);
  _handling_blocked : bool;
  disposition : gmap Z Handler;
  sigmask : gset Z;
  trace : list Event
}.

Definition with_pending (q : list (Z * Frame)) (st : State) : State :=
  mkState (_signals st) (_signums st) q (_handling_blocked st)
          (disposition st) (sigmask st) (trace st).

Definition with_blocked (b : bool) (st : State) : State :=
  mkState (_signals st) (_signums st) (_pending_signals st) b
          (disposition st) (sigmask st) (trace st).

Definition with_registry (m : gmap Z (option Handler)) (ks : list Z)
    (st : State) : State :=
  mkState (Some m) (Some ks) (_pending_signals st) (_handling_blocked st)
          (disposition st) (sigmask st) (trace st).

Definition log (e : Event) (st : State) : State :=
  mkState (_signals st) (_signums st) (_pending_signals st)
          (_handling_blocked st) (disposition st) (sigmask st)
          (trace st ++ [e]).

(** ** The [signal] module *)

Definition getsignal (st : State) (signum : Z) : option Handler :=
  disposition st !! signum.

(** [signal.signal(signum, h)]; the previous handler is read with
    [getsignal] before the call where the source uses the return value. *)
Definition signal_signal (signum : Z) (h : Handler) (st : State) : State :=
  log (EvSignal signum h)
      (mkState (_signals st) (_signums st) (_pending_signals st)
               (_handling_blocked st) (<[signum := h]> (disposition st))
               (sigmask st) (trace st)).

Definition pthread_sigmask (how : How) (sigs : list Z) (st : State) : State :=
  let mask' := match how with
               | SIG_BLOCK => sigmask st ∪ list_to_set sigs
               | SIG_UNBLOCK => sigmask st ∖ list_to_set sigs
               end in
  log (EvSigmask how sigs)
      (mkState (_signals st) (_signums st) (_pending_signals st)
               (_handling_blocked st) (disposition st) mask' (trace st)).

(** ** The module's functions *)

(** [_block()] and [_unblock()]: [pthread_sigmask] iterates over
    [_signums], which is [None] until [set] has run: a [TypeError]. *)
Definition _block (st : State) : State * Outcome unit :=
  match _signums st with
  | None => (st, Raise TypeError)
  | Some ks => (pthread_sigmask SIG_BLOCK ks st, Ret tt)
  end.

Definition _unblock (st : State) : State * Outcome unit :=
  match _signums st with
  | None => (st, Raise TypeError)
  | Some ks => (pthread_sigmask SIG_UNBLOCK ks st, Ret tt)
  end.

(** [_register_signal(signum, frame)], the deferring handler. *)
Definition register_signal (signum : Z) (frame : Frame) (st : State)
    : State * Outcome unit :=
  match _block st with
  | (st1, Ret _) =>
      _unblock (with_pending (_pending_signals st1 ++ [(signum, frame)]) st1)
  | r => r
  end.

Definition block_handling (st : State) : State * Outcome unit :=
  (with_blocked true st, Ret tt).

Inductive PreserveHandler := AUTO | ALWAYS | NEVER.

Definition _preserve_if_not_dfl (st : State) (signum : Z) : bool :=
  if decide (signum = SIGINT) then
    bool_decide (getsignal st signum ≠ Some default_int_handler)
  else if decide (signum = SIGPIPE) then
    bool_decide (getsignal st signum ≠ Some SIG_IGN)
  else
    bool_decide (getsignal st signum ≠ Some SIG_DFL).

Definition _preserve_always (st : State) (signum : Z) : bool := true.
Definition _preserve_never (st : State) (signum : Z) : bool := false.

Definition preserve (p : PreserveHandler) : State -> Z -> bool :=
  match p with
  | AUTO => _preserve_if_not_dfl
  | ALWAYS => _preserve_always
  | NEVER => _preserve_never
  end.

Definition keys (signals : gmap Z (option Handler)) : list Z :=
  (map_to_list signals).*1.

(** The first loop of [set]: [signals[s] = signal.getsignal(s)] for the
    signals the policy preserves. *)
Definition preserve_loop (p : PreserveHandler) (st : State)
    (signals : gmap Z (option Handler)) (signums : list Z)
    : gmap Z (option Handler) :=
  foldl (fun m s => if preserve p st s then <[s := getsignal st s]> m else m)
        signals signums.

(** The second loop of [set]. *)
Definition install_loop (signums : list Z) (st : State) : State :=
  foldl (fun st s => signal_signal s _register_signal st) st signums.

Definition set (signals : gmap Z (option Handler))
    (preserve_handler : PreserveHandler) (st : State) : State * Outcome unit :=
  if decide (signals = ∅) then block_handling st
  else match _signals st with
       | Some _ => (st, Raise ValueError)
       | None =>
           let signums := keys signals in
           let st1 := pthread_sigmask SIG_BLOCK signums st in
           let signals' := preserve_loop preserve_handler st1 signals signums in
           let st2 := with_registry signals' signums st1 in
           let st3 := install_loop signums st2 in
           (pthread_sigmask SIG_UNBLOCK signums st3, Ret tt)
       end.

Section Handle.

(** What the environment decides: how a call of an application callable
    ends, and the kernel's default action for each signal. *)
Variable callee : nat -> Z -> Frame -> CallResult.
Variable default_action : Z -> Action.

(** [handler(signum, frame)].  An application callable is opaque: the call
    is recorded and returns or raises.  [default_int_handler] raises
    [KeyboardInterrupt]; the two enum members are not callable. *)
Definition call (h : Handler) (signum : Z) (frame : Frame) (st : State)
    : State * Outcome unit :=
  let st1 := log (EvCall h signum frame) st in
  match h with
  | Callable id =>
      match callee id signum frame with
      | Returns => (st1, Ret tt)
      | Raises => (st1, Raise HandlerError)
      end
  | default_int_handler => (st1, Raise KeyboardInterrupt)
  | _register_signal => register_signal signum frame st1
  | SIG_DFL | SIG_IGN => (st1, Raise TypeError)
  end.

(** The kernel delivers [signum] while its disposition is SIG_DFL. *)
Definition default_delivery (signum : Z) (st : State) : State * Outcome unit :=
  if ends_process (default_action signum) then (st, Killed signum)
  else (st, Ret tt).

(** The [else] branch of the loop body of [handle]: replay [signum] under
    the default disposition.  A raised signal that is masked stays
    pending in the kernel until the mask is lifted; one that is not
    masked is delivered by [raise_signal] itself. *)
Definition replay_default (signum : Z) (st : State) : State * Outcome unit :=
  let prev_handler := getsignal st signum in
  let st1 := signal_signal signum SIG_DFL st in
  let st2 := log (EvRaise signum) st1 in
  let masked := bool_decide (signum ∈ sigmask st2) in
  match (if masked then (st2, Ret tt) else default_delivery signum st2) with
  | (st3, Ret _) =>
      let st4 := pthread_sigmask SIG_UNBLOCK [signum] st3 in
      match (if masked then default_delivery signum st4 else (st4, Ret tt)) with
      | (st5, Ret _) =>
          let st6 := pthread_sigmask SIG_BLOCK [signum] st5 in
          match prev_handler with
          | Some h => (signal_signal signum h st6, Ret tt)
          | None => (st6, Raise TypeError)
          end
      | r => r
      end
  | r => r
  end.

(** The loop body of [handle] after the [pop(0)]. *)
Definition dispatch (signum : Z) (frame : Frame) (st : State)
    : State * Outcome unit :=
  match _signals st with
  | None => (st, Raise TypeError)
  | Some signals =>
      match signals !! signum with
      | None => (st, Raise KeyError)
      | Some handler =>
          match handler with
          | None => (st, Ret tt)
          | Some SIG_IGN => (st, Ret tt)
          | Some SIG_DFL => replay_default signum st
          | Some h => call h signum frame st
          end
      end
  end.

(** [while _pending_signals: ...]: the queue is read from the state at
    every turn; the fuel bounds the number of turns. *)
Fixpoint handle_loop (fuel : nat) (st : State) : State * Outcome unit :=
  match _pending_signals st with
  | [] => (st, Ret tt)
  | (signum, frame) :: rest =>
      match fuel with
      | O => (st, Diverges)
      | S fuel' =>
          match dispatch signum frame (with_pending rest st) with
          | (st1, Ret _) => handle_loop fuel' st1
          | r => r
          end
      end
  end.

(** [handle()].  The [finally] clause runs when the loop ends or raises;
    it does not when the process was killed or the loop never ends. *)
Definition handle (st : State) : State * Outcome unit :=
  if _handling_blocked st then (st, Ret tt)
  else match _block st with
       | (st1, Ret _) =>
           match handle_loop (length (_pending_signals st1)) st1 with
           | (st2, Ret _) => _unblock st2
           | (st2, Raise e) =>
               match _unblock st2 with
               | (st3, Ret _) => (st3, Raise e)
               | r => r
               end
           | r => r
           end
       | r => r
       end.

Definition get_pending_signals (st : State)
    : State * Outcome (list (Z * Frame)) :=
  match _block st with
  | (st1, Ret _) =>
      let pending := _pending_signals st1 in
      match _unblock st1 with
      | (st2, Ret _) => (st2, Ret pending)
      | (st2, Raise e) => (st2, Raise e)
      | (st2, Killed s) => (st2, Killed s)
      | (st2, Diverges) => (st2, Diverges)
      end
  | (st1, Raise e) => (st1, Raise e)
  | (st1, Killed s) => (st1, Killed s)
  | (st1, Diverges) => (st1, Diverges)
  end.

Definition unblock_handling (st : State) : State * Outcome unit :=
  handle (with_blocked false st).

(** ** The module's callers *)

(** What can happen to the module between two moments: a call of one of
    its public functions, or the interpreter running the handler
    installed for a signal that has arrived ([Deliver]; the registry is
    concerned only when that handler is its own deferring handler). *)
Inductive Op : Type :=
| CallSet (signals : gmap Z (option Handler)) (p : PreserveHandler)
| CallHandle
| CallGetPending
| CallBlockHandling
| CallUnblockHandling
| Deliver (signum : Z) (frame : Frame).

Definition deliver (signum : Z) (frame : Frame) (st : State)
    : State * Outcome unit :=
  match getsignal st signum with
  | Some _register_signal => register_signal signum frame st
  | _ => (st, Ret tt)
  end.

Definition step (op : Op) (st : State) : State * Outcome unit :=
  match op with
  | CallSet signals p => set signals p st
  | CallHandle => handle st
  | CallGetPending =>
      match get_pending_signals st with
      | (st1, Ret _) => (st1, Ret tt)
      | (st1, Raise e) => (st1, Raise e)
      | (st1, Killed s) => (st1, Killed s)
      | (st1, Diverges) => (st1, Diverges)
      end
  | CallBlockHandling => block_handling st
  | CallUnblockHandling => unblock_handling st
  | Deliver signum frame => deliver signum frame st
  end.

(** The state after a sequence of operations, whatever each returned or
    raised to its caller. *)
Definition run (ops : list Op) (st : State) : State :=
  foldl (fun st op => (step op st).1) st ops.

(** The signals a sequence of operations delivers, in order. *)
Definition arrivals (ops : list Op) : list (Z * Frame) :=
  omap (fun op => match op with
                  | Deliver signum frame => Some (signum, frame)
                  | _ => None
                  end) ops.

(** ** Vocabulary of the statements *)

(** A dispatch shows in the trace as a handler call or as a re-raise. *)
Definition is_dispatch (e : Event) : bool :=
  match e with
  | EvCall _ _ _ | EvRaise _ => true
  | _ => false
  end.

Definition dispatches (t : list Event) : list Event :=
  List.filter is_dispatch t.

(** What dispatching one queue entry shows in the trace, and how it ends,
    as the registry entry of its signal decides.  An entry that is the
    deferring handler queues the signal again at every turn: the drain
    never ends. *)
Definition entry_dispatch (signals : gmap Z (option Handler))
    (e : Z * Frame) : list Event :=
  match signals !! e.1 with
  | Some (Some SIG_DFL) => [EvRaise e.1]
  | Some (Some SIG_IGN) | Some None | None => []
  | Some (Some h) => [EvCall h e.1 e.2]
  end.

Definition entry_outcome (signals : gmap Z (option Handler))
    (e : Z * Frame) : Outcome unit :=
  match signals !! e.1 with
  | None => Raise KeyError
  | Some None | Some (Some SIG_IGN) => Ret tt
  | Some (Some SIG_DFL) =>
      if ends_process (default_action e.1) then Killed e.1 else Ret tt
  | Some (Some default_int_handler) => Raise KeyboardInterrupt
  | Some (Some (Callable id)) =>
      match callee id e.1 e.2 with
      | Returns => Ret tt
      | Raises => Raise HandlerError
      end
  | Some (Some _register_signal) => Diverges
  end.

Definition entry_returns (signals : gmap Z (option Handler))
    (e : Z * Frame) : bool :=
  match entry_outcome signals e with Ret _ => true | _ => false end.

(** The entries a drain gets to: the queue up to and including the first
    entry whose dispatch does not return. *)
Fixpoint reached (signals : gmap Z (option Handler))
    (q : list (Z * Frame)) : list (Z * Frame) :=
  match q with
  | [] => []
  | e :: rest =>
      if entry_returns signals e then e :: reached signals rest else [e]
  end.

(** How the drain of a queue ends. *)
Fixpoint drain_outcome (signals : gmap Z (option Handler))
    (q : list (Z * Frame)) : Outcome unit :=
  match q with
  | [] => Ret tt
  | e :: rest =>
      match entry_outcome signals e with
      | Ret _ => drain_outcome signals rest
      | r => r
      end
  end.

(** An installed registry: the two globals are set, the monitored signals
    are the keys of the mapping, their disposition is the deferring
    handler, and no entry of the mapping is the deferring handler (a
    mapping that holds it makes the loop of [handle] endless). *)
Definition installed (signals : gmap Z (option Handler)) (st : State) : Prop :=
  _signals st = Some signals
  /\ (exists ks, _signums st = Some ks
                 /\ forall s, s ∈ ks <-> is_Some (signals !! s))
  /\ (forall s, is_Some (signals !! s) ->
                disposition st !! s = Some _register_signal)
  /\ (forall s, signals !! s <> Some (Some _register_signal)).

(** The operations of a caller that does not resume, with deliveries of
    monitored signals only. *)
Definition no_resume (signals : gmap Z (option Handler)) (op : Op) : Prop :=
  match op with
  | CallUnblockHandling => False
  | Deliver signum _ => is_Some (signals !! signum)
  | _ => True
  end.

(** The baseline the AUTO policy compares a disposition with. *)
Definition baseline (signum : Z) : Handler :=
  if decide (signum = SIGINT) then default_int_handler
  else if decide (signum = SIGPIPE) then SIG_IGN
  else SIG_DFL.

End Handle.

(** ** Sample environments *)

Definition always_returns (id : nat) (signum : Z) (frame : Frame)
    : CallResult := Returns.

(** A handler that never returns, as one that ends in [sys.exit]. *)
Definition always_raises (id : nat) (signum : Z) (frame : Frame)
    : CallResult := Raises.

Definition all_terminate (signum : Z) : Action := Term.

(** The mapping of a caller that handles signal 15 with a callable. *)
Definition term_mapping : gmap Z (option Handler) :=
  {[ 15 := Some (Callable 1) ]}.

(** A fresh process: nothing installed, and three signals whose
    dispositions are the interpreter's at start-up. *)
Definition fresh : State :=
  mkState None None [] false
          (<[SIGINT := default_int_handler]>
             (<[SIGPIPE := SIG_IGN]> (<[15 := SIG_DFL]> ∅)))
          ∅ [].

(** The process after [set(term_mapping)], and then suspended. *)
Definition term_installed : State := (set term_mapping AUTO fresh).1.
Definition term_suspended : State := (block_handling term_installed).1.

(** Two arrivals of signal 15 around a call of [handle]. *)
Definition two_arrivals : list Op :=
  [Deliver 15 0%nat; CallHandle; Deliver 15 1%nat].

(** ** The decorator and the context manager *)

Section Callers.

Variable callee : nat -> Z -> Frame -> CallResult.
Variable default_action : Z -> Action.

(** [add_handling(func)]: the decorated function, [handle()] and then
    [func]; the wrapped function is a computation on the state. *)
Definition add_handling {A : Type} (func : State -> State * Outcome A)
    (st : State) : State * Outcome A :=
  match handle callee default_action st with
  | (st1, Ret _) => func st1
  | (st1, Raise e) => (st1, Raise e)
  | (st1, Killed s) => (st1, Killed s)
  | (st1, Diverges) => (st1, Diverges)
  end.

(** [with BlockedHandling(): body].  [__exit__] runs when the body
    returns or raises and returns [None]: the body's exception goes on,
    unless [unblock_handling] raises one of its own. *)
Definition BlockedHandling {A : Type} (body : State -> State * Outcome A)
    (st : State) : State * Outcome A :=
  match body (block_handling st).1 with
  | (st2, Ret a) =>
      match unblock_handling callee default_action st2 with
      | (st3, Ret _) => (st3, Ret a)
      | (st3, Raise e) => (st3, Raise e)
      | (st3, Killed s) => (st3, Killed s)
      | (st3, Diverges) => (st3, Diverges)
      end
  | (st2, Raise e) =>
      match unblock_handling callee default_action st2 with
      | (st3, Ret _) => (st3, Raise e)
      | (st3, Raise e') => (st3, Raise e')
      | (st3, Killed s) => (st3, Killed s)
      | (st3, Diverges) => (st3, Diverges)
      end
  | (st2, Killed s) => (st2, Killed s)
  | (st2, Diverges) => (st2, Diverges)
  end.

(** A body made of operations of the module. *)
Definition body_of (ops : list Op) (st : State) : State * Outcome unit :=
  (run callee default_action ops st, Ret tt).

(** No replayed default action ends the process. *)
Definition survives (signals : gmap Z (option Handler)) : Prop :=
  forall s, signals !! s = Some (Some SIG_DFL) ->
            ends_process (default_action s) = false.

End Callers.

(** Deliveries of monitored signals only. *)
Definition monitored_only (signals : gmap Z (option Handler)) (op : Op)
    : Prop :=
  match op with
  | Deliver signum _ => is_Some (signals !! signum)
  | _ => True
  end.

(** The operations that cannot install: everything but [set] with a
    mapping that is not empty. *)
Definition no_install (op : Op) : Prop :=
  match op with
  | CallSet signals _ => signals = ∅
  | _ => True
  end.

End Synsignals.

(* ===================================================================== *)
(** * nixos-upgrade.py: [CliProgram] *)
(* ===================================================================== *)

Module NixosUpgrade.

Local Open Scope string_scope.

(** ** Strings *)

(** Python strings are modelled by [string]; the wire format is ASCII, on
    which [str.encode] is the identity on the bytes. *)
Definition encode (s : string) : list Byte.byte := list_byte_of_string s.

(** [sep.join(fields)]. *)
Fixpoint join (sep : string) (fields : list string) : string :=
  match fields with
  | [] => ""
  | [f] => f
  | f :: rest => f ++ sep ++ join sep rest
  end.

(** The ASCII characters for which [str.isspace] holds: TAB to CR, FS to
    US, and the space. *)
Definition is_space (c : ascii) : bool :=
  let n := nat_of_ascii c in
  ((9 <=? n)%nat && (n <=? 13)%nat) || ((28 <=? n)%nat && (n <=? 32)%nat).

(** [s.rstrip()]. *)
Fixpoint rstrip (s : string) : string :=
  match s with
  | EmptyString => EmptyString
  | String c s' =>
      match rstrip s' with
      | EmptyString => if is_space c then EmptyString else String c EmptyString
      | r => String c r
      end
  end.

(** The record terminator, ["\n"]. *)
Definition NL : string := String (ascii_of_nat 10) EmptyString.

(** Truth value of a string. *)
Definition truthy (s : string) : bool :=
  match s with EmptyString => false | _ => true end.

(** ** Class constants *)

Definition EX_OK : Z := 0.
Definition EXIT_ERR_CODE : Z := 1.
Definition EXIT_SIG_CODE_SHIFT : Z := 128.
Definition SIGTERM : Z := 15.
Definition SIGKILL : Z := 9.
Definition SIG_TO_TERM_SUBPROC : Z := SIGTERM.
Definition SIG_TO_KILL_SUBPROC : Z := SIGKILL.
(** seconds *)
Definition TERM_SUBPROC_TIMEOUT : Z := 5.
(** [POLLING_PROC_SECS = 0.1] and the [0.01] of [write_to_pipe_check], in
    milliseconds. *)
Definition POLLING_PROC_MS : Z := 100.
Definition PONG_RETRY_MS : Z := 10.
(** [attempts = 100] *)
Definition ATTEMPTS : nat := 100.
Definition PONG : string := "PONG".

(** ** Events and outcomes *)

Inductive Level := DEBUG | INFO | WARNING | ERROR | CRITICAL.

Inductive Event : Type :=
| EvSpinnerStart (color : string)
| EvSpinnerStop
| EvLog (level : Level) (msg : string)
| EvPrint (msg : string)
| EvPopen (cmd : list string) (stderr_to_stdout : bool) (no_color : bool)
| EvHandle                                      (* synsignals.handle() *)
| EvStderrWrite (text : string)
| EvSleep (millis : Z)
| EvKillpg (pid : Z) (sig : Z)                  (* os.killpg *)
| EvCommunicate (timeout : option Z)            (* proc.communicate *)
| EvWrite (fd : Z) (data : list Byte.byte)      (* os.write *)
| EvSetBlocking (fd : Z) (blocking : bool)      (* os.set_blocking *)
| EvReadline (line : string).                   (* readline().rstrip() *)

Inductive Outcome (A : Type) : Type :=
| Ret (a : A)
| Exit (code : Z)          (* sys.exit(code) *)
| AssertionError.
Arguments Ret {A} a.
Arguments Exit {A} code.
Arguments AssertionError {A}.

(** ** State *)

(** A child process as the supervisor sees it: the lines
    [proc.stdout.readline()] finds at each turn of the polling loop while
    [proc.poll()] is still [None], what [proc.stdout.read()] finds after
    the exit, the exit code, and whether the child is gone within [t]
    seconds of a wait that starts during termination. *)
Record Child : Type := mkChild {
  polls : list (list string);
  tail : string;
  exit_code : Z;
  exits_within : Z -> bool
}.

(** [subprocess.Popen] object. *)
Record Popen : Type := mkPopen {
  pid : Z;
  returncode : option Z;
  child : Child
}.

(** The instance attributes and class constants the modelled methods
    read, the inbound stream, and the trace.  [from_worker] is what the
    inbound stream holds at successive moments: a line, or nothing yet. *)
Record Self : Type := mkSelf {
  IFS : string;
  PY_SH_FD : Z;
  SH_PY_FD : Z;
  STDERR_IS_A_TTY : bool;
  has_spinner : bool;
  debug_mode : bool;
  colored_stderr : bool;
  running_subproc : option Popen;
  from_worker : list (option string);
  blocking : bool;
  trace : list Event
}.

Definition log (e : Event) (self : Self) : Self :=
  mkSelf (IFS self) (PY_SH_FD self) (SH_PY_FD self) (STDERR_IS_A_TTY self)
         (has_spinner self) (debug_mode self) (colored_stderr self)
         (running_subproc self) (from_worker self) (blocking self)
         (trace self ++ [e]).

Definition with_running_subproc (p : option Popen) (self : Self) : Self :=
  mkSelf (IFS self) (PY_SH_FD self) (SH_PY_FD self) (STDERR_IS_A_TTY self)
         (has_spinner self) (debug_mode self) (colored_stderr self)
         p (from_worker self) (blocking self) (trace self).

Definition with_from_worker (s : list (option string)) (self : Self) : Self :=
  mkSelf (IFS self) (PY_SH_FD self) (SH_PY_FD self) (STDERR_IS_A_TTY self)
         (has_spinner self) (debug_mode self) (colored_stderr self)
         (running_subproc self) s (blocking self) (trace self).

(** [os.set_blocking(self.SH_PY_FD, b)] *)
Definition set_blocking (b : bool) (self : Self) : Self :=
  log (EvSetBlocking (SH_PY_FD self) b)
      (mkSelf (IFS self) (PY_SH_FD self) (SH_PY_FD self) (STDERR_IS_A_TTY self)
              (has_spinner self) (debug_mode self) (colored_stderr self)
              (running_subproc self) (from_worker self) b (trace self)).

(** ** Spinner, exit *)

Definition spinner_start (color : string) (self : Self) : Self :=
  if has_spinner self then log (EvSpinnerStart color) self else self.

Definition spinner_stop (self : Self) : Self :=
  if has_spinner self then log EvSpinnerStop self else self.

(** [exit(code, msg, level)]; [level] is [None] for a plain [print]. *)
Definition exit {A} (code : Z) (msg : option string) (level : option Level)
    (self : Self) : Self * Outcome A :=
  let self1 := spinner_stop self in
  let self2 :=
    match msg, level with
    | Some m, Some l => if truthy m then log (EvLog l m) self1 else self1
    | Some m, None => if truthy m then log (EvPrint m) self1 else self1
    | None, _ => self1
    end in
  (self2, Exit code).

Definition exit_with_error {A} (msg : option string) (code : Z) (self : Self)
    : Self * Outcome A :=
  if decide (code = EX_OK) then (self, AssertionError)
  else exit code msg (Some ERROR) self.

Definition get_sig_exit_code (signum : Z) : Z := EXIT_SIG_CODE_SHIFT + signum.

(** ** The privileged channel *)

Definition write_to_pipe (cmd : list string) (self : Self) : Self :=
  let cmd := join (IFS self) cmd ++ NL in
  log (EvWrite (PY_SH_FD self) (encode cmd)) self.

(** [from_worker_file.readline()]: in blocking mode the call waits for a
    line; otherwise it returns the empty string when nothing is there.
    The empty string also marks the end of the stream. *)
Fixpoint readline (blocking : bool) (stream : list (option string))
    : string * list (option string) :=
  match stream with
  | [] => ("", [])
  | Some l :: rest => (l, rest)
  | None :: rest => if blocking then readline blocking rest else ("", rest)
  end.

Definition readline_from_worker (self : Self) : Self * string :=
  let '(l, rest) := readline (blocking self) (from_worker self) in
  let line := rstrip l in
  (log (EvReadline line) (with_from_worker rest self), line).

(** The [while attempts > 0] loop of [write_to_pipe_check]; [pong] is the
    variable the loop assigns. *)
Fixpoint pong_loop (attempts : nat) (pong : string) (self : Self)
    : Self * string :=
  match attempts with
  | O => (self, pong)
  | S attempts' =>
      let self1 := log (EvSleep PONG_RETRY_MS) self in
      let '(self2, pong) := readline_from_worker self1 in
      if truthy pong then (self2, pong)
      else pong_loop attempts' pong self2
  end.

Definition write_to_pipe_check (cmd : list string) (self : Self)
    : Self * Outcome unit :=
  let self1 := write_to_pipe cmd self in
  let self2 := set_blocking false self1 in
  let '(self3, pong) := pong_loop ATTEMPTS "" self2 in
  let self4 := set_blocking true self3 in
  if decide (pong = PONG) then (self4, Ret tt)
  else exit_with_error (Some "privileged process is not responding")
                       EXIT_ERR_CODE self4.

Definition run_privileged_task (name : string) (args : list string)
    (self : Self) : Self * Outcome string :=
  match write_to_pipe_check (name :: args) self with
  | (self1, Ret _) =>
      let '(self2, task_result) := readline_from_worker self1 in
      (self2, Ret task_result)
  | (self1, Exit code) => (self1, Exit code)
  | (self1, AssertionError) => (self1, AssertionError)
  end.

(** ** Termination *)

Section Supervisor.

(** [signal.strsignal] and the regular-expression substitution of
    [clear_color] are taken as given. *)
Variable strsignal : Z -> string.
Variable clear_color : string -> string.

Definition get_sig_received_msg (signum : Z) : string :=
  "'" ++ strsignal signum ++ "' signal received".

(** [proc.communicate(timeout)]: [true] when it returns, [false] when it
    raises [TimeoutExpired].  Without a timeout it waits for the exit. *)
Definition communicate (proc : Popen) (timeout : option Z) : bool :=
  match timeout with
  | None => true
  | Some t =>
      match returncode proc with
      | Some _ => true
      | None => exits_within (child proc) t
      end
  end.

Definition termination_signal_handler (signum : Z) (frame : nat)
    (self : Self) : Self * Outcome unit :=
  let self1 := spinner_stop self in
  let self2 := log (EvLog ERROR (get_sig_received_msg signum)) self1 in
  let self3 :=
    match running_subproc self2 with
    | None => self2
    | Some proc =>
        let s1 :=
          match returncode proc with
          | None =>
              log (EvKillpg (pid proc) SIG_TO_TERM_SUBPROC)
                  (log (EvLog WARNING "terminating running subprocess...") self2)
          | Some _ => self2
          end in
        let s2 := spinner_start "yellow" s1 in
        let s3 := log (EvCommunicate (Some TERM_SUBPROC_TIMEOUT)) s2 in
        let s4 :=
          if communicate proc (Some TERM_SUBPROC_TIMEOUT) then s3
          else
            let k1 := log (EvKillpg (pid proc) SIG_TO_KILL_SUBPROC) s3 in
            let k2 := spinner_stop k1 in
            let k3 := log (EvLog WARNING
              "  SIGKILL has been sent to the subprocess as a last resort") k2 in
            log (EvCommunicate None) k3 in
        let s5 := spinner_stop s4 in
        log (EvLog WARNING "ok") s5
    end in
  exit_with_error None (get_sig_exit_code signum) self3.

(** ** Supervised commands *)

(** [while line := proc.stdout.readline(): ...] on the lines of one turn. *)
Fixpoint read_lines (no_color : bool) (lines : list string)
    (stdout_data : string) (self : Self) : Self * string :=
  match lines with
  | [] => (self, stdout_data)
  | line :: rest =>
      let line := if no_color then clear_color line else line in
      let self1 := if debug_mode self then log (EvStderrWrite line) self
                   else self in
      read_lines no_color rest (stdout_data ++ line) self1
  end.

(** [while proc.poll() is None: ...], one turn for each element of
    [polls]: the pipe is non-blocking, so the inner loop reads the lines
    that are there and stops.  No monitored signal is pending at the
    [synsignals.handle()] of these runs: the call is recorded and
    returns. *)
Fixpoint poll_loop (no_color : bool) (turns : list (list string))
    (stdout_data : string) (self : Self) : Self * string :=
  match turns with
  | [] => (self, stdout_data)
  | lines :: rest =>
      let self1 := log EvHandle self in
      let '(self2, stdout_data) := read_lines no_color lines stdout_data self1 in
      let self3 := log (EvSleep POLLING_PROC_MS) self2 in
      poll_loop no_color rest stdout_data self3
  end.

Definition run_cmd (cmd : list string) (desc msg_on_success : string)
    (stderr_out with_spinner exit_on_error : bool)
    (msg_on_success_loglevel : Level) (c : Child) (new_pid : Z)
    (self : Self) : Self * Outcome string :=
  let stderr_out := debug_mode self || stderr_out in
  let self1 := if truthy desc then log (EvLog INFO desc) self else self in
  let command := join " " cmd in
  let self2 := log (EvLog DEBUG ("> " ++ command)) self1 in
  let self3 :=
    if negb stderr_out && with_spinner then spinner_start "green" self2
    else if stderr_out && with_spinner && negb (STDERR_IS_A_TTY self2)
         then spinner_start "green" self2
         else self2 in
  let no_color := negb (colored_stderr self3) in
  let self4 := log (EvPopen cmd (negb stderr_out) no_color) self3 in
  let proc := mkPopen new_pid None c in
  let self5 := with_running_subproc (Some proc) self4 in
  let '(self6, stdout_data) := poll_loop no_color (polls c) "" self5 in
  let self7 := with_running_subproc None self6 in
  let self8 := spinner_stop self7 in
  let tail := if no_color then clear_color (tail c) else tail c in
  let stdout_data := stdout_data ++ tail in
  let self9 := if truthy tail && debug_mode self8
               then log (EvStderrWrite tail) self8 else self8 in
  let retcode := exit_code c in
  let finish (s : Self) : Self * Outcome string :=
    (log (EvLog DEBUG "> done") s, Ret stdout_data) in
  if decide (retcode ≠ EX_OK) then
    let msg := "`" ++ command ++ "` subprocess error" in
    let self10 := log (EvLog ERROR msg) self9 in
    if exit_on_error then
      match exit_with_error (A := string) None retcode self10 with
      | (s, Ret _) => finish s
      | r => r
      end
    else finish self10
  else
    let self10 := if truthy msg_on_success
                  then log (EvLog msg_on_success_loglevel msg_on_success) self9
                  else self9 in
    finish self10.

End Supervisor.

(** ** Vocabulary of the statements *)

(** The wire format of a request as the specification writes it,
    [field1<SEP>field2<SEP>...<SEP>fieldN] and the newline, on bytes. *)
Definition wire_record (sep : list Byte.byte) (fields : list (list Byte.byte))
    : list Byte.byte :=
  (match fields with
   | [] => []
   | f :: rest => f ++ concat (List.map (fun g => sep ++ g) rest)
   end ++ [Byte.x0a])%list.

(** The specification's [readLine]: the line with its terminator
    stripped, and nothing else. *)
Fixpoint strip_terminator (s : string) : string :=
  match s with
  | EmptyString => EmptyString
  | String c s' =>
      match s' with
      | EmptyString =>
          if Ascii.eqb c (ascii_of_nat 10) then EmptyString
          else String c EmptyString
      | _ => String c (strip_terminator s')
      end
  end.

(** The lines a bounded number of polls of a stream observes: one line a
    poll, up to the first line that is not blank. *)
Fixpoint polled (attempts : nat) (stream : list (option string))
    : list string :=
  match attempts with
  | O => []
  | S attempts' =>
      let '(l, rest) := readline false stream in
      if truthy (rstrip l) then [rstrip l]
      else rstrip l :: polled attempts' rest
  end.

(** What these polls leave in the stream. *)
Fixpoint unpolled (attempts : nat) (stream : list (option string))
    : list (option string) :=
  match attempts with
  | O => stream
  | S attempts' =>
      let '(l, rest) := readline false stream in
      if truthy (rstrip l) then rest else unpolled attempts' rest
  end.

(** The lines read, the requests written, the retry pauses, the
    supervision calls and the error reports of a trace. *)
Definition reads (t : list Event) : list string :=
  omap (fun e => match e with EvReadline l => Some l | _ => None end) t.

Definition writes (t : list Event) : list (list Byte.byte) :=
  omap (fun e => match e with EvWrite _ d => Some d | _ => None end) t.

Definition retries (t : list Event) : nat :=
  length (List.filter
            (fun e => match e with EvSleep _ => true | _ => false end) t).

Definition is_supervision (e : Event) : bool :=
  match e with
  | EvKillpg _ _ | EvCommunicate _ => true
  | _ => false
  end.

Definition supervision (t : list Event) : list Event :=
  List.filter is_supervision t.

Definition is_error_log (e : Event) : bool :=
  match e with
  | EvLog ERROR _ => true
  | _ => false
  end.

Definition error_logs (t : list Event) : list Event :=
  List.filter is_error_log t.

(** ** Sample programs and workers *)

(** A program whose separator is [|], talking to a worker whose stream
    is given. *)
Definition program (stream : list (option string)) : Self :=
  mkSelf "|" 3 4 false false false false None stream true [].

(** A worker that answers the token and then [OK], after a while each. *)
Definition ok_worker : list (option string) :=
  [None; None; Some (PONG ++ NL); None; Some ("OK" ++ NL)].

(** A worker whose result line ends in a space. *)
Definition spacey_worker : list (option string) :=
  [Some (PONG ++ NL); Some ("OK " ++ NL)].

(** A worker that answers the token at the last permitted retry. *)
Definition late_worker : list (option string) :=
  app (replicate 99 None) [Some (PONG ++ NL)].

(** Children: one that is gone within the grace period, one that is not,
    one that fails with code 2. *)
Definition obedient_child : Child := mkChild [] "" 0 (fun _ => true).
Definition stubborn_child : Child := mkChild [] "" 0 (fun _ => false).
Definition failing_child : Child :=
  mkChild [["building"]; []] "error" 2 (fun _ => true).

Definition supervising (c : Child) : Self :=
  mkSelf "|" 3 4 false true false false (Some (mkPopen 4242 None c)) [] true [].

(** ** Text helpers *)

(** [s.split(sep)] for a separator of one character. *)
Fixpoint split (sep : ascii) (s : string) : list string :=
  match s with
  | EmptyString => [EmptyString]
  | String c s' =>
      if Ascii.eqb c sep then EmptyString :: split sep s'
      else match split sep s' with
           | [] => [String c EmptyString]
           | w :: ws => String c w :: ws
           end
  end.

(** [process_diff]: ["\n".join(self.diff.split("\n")[2:])]. *)
Definition process_diff (diff : string) : string :=
  join NL (drop 2 (split (ascii_of_nat 10) diff)).

(** [s.upper()] on ASCII. *)
Definition upper_ascii (c : ascii) : ascii :=
  let n := nat_of_ascii c in
  if (97 <=? n)%nat && (n <=? 122)%nat then ascii_of_nat (n - 32) else c.

Fixpoint upper (s : string) : string :=
  match s with
  | EmptyString => EmptyString
  | String c s' => String (upper_ascii c) (upper s')
  end.

(** *** [clear_color]: [re.sub(r'\033\[[0-9;]+m', '', text)] *)

Definition ESC : ascii := ascii_of_nat 27.

(** The class [[0-9;]]. *)
Definition is_param (c : ascii) : bool :=
  let n := nat_of_ascii c in
  ((48 <=? n)%nat && (n <=? 57)%nat) || (n =? 59)%nat.

(** The length of the match of [[0-9;]+m] at the start of [s], when
    [seen] characters of the class have been matched already.  The class
    does not hold [m], so the greedy run is the only candidate. *)
Fixpoint params_len (s : string) (seen : nat) : option nat :=
  match s with
  | EmptyString => None
  | String c r =>
      if is_param c then params_len r (S seen)
      else if Ascii.eqb c "m" && (0 <? seen)%nat then Some (S seen)
           else None
  end.

(** The length of the match of the whole pattern at the start of [s]. *)
Definition match_len (s : string) : option nat :=
  match s with
  | String c1 (String c2 r) =>
      if Ascii.eqb c1 ESC && Ascii.eqb c2 "[" then
        match params_len r 0 with
        | Some n => Some (2 + n)%nat
        | None => None
        end
      else None
  | _ => None
  end.

(** The substitution, left to right: [skip] characters of a match are
    still to be dropped. *)
Fixpoint sub_from (skip : nat) (s : string) : string :=
  match s with
  | EmptyString => EmptyString
  | String c r =>
      match skip with
      | S k => sub_from k r
      | O =>
          match match_len s with
          | Some n => sub_from (pred n) r
          | None => String c (sub_from 0 r)
          end
      end
  end.

Definition clear_color (text : string) : string := sub_from 0 text.

(** A colour code: ESC, [[], the parameters, [m]. *)
Definition sgr (params : string) : string :=
  String ESC (String "[" (params ++ "m")).

Fixpoint all_chars (p : ascii -> bool) (s : string) : bool :=
  match s with
  | EmptyString => true
  | String c r => p c && all_chars p r
  end.

Definition no_escape (s : string) : bool :=
  all_chars (fun c => negb (Ascii.eqb c ESC)) s.

(** ** Verbosity *)

(** [config_verbosity]: the level the logger is set to. *)
Definition config_verbosity (verbosity : Z) : Level :=
  if (verbosity <=? -1)%Z then ERROR
  else if (verbosity =? 0)%Z then WARNING
  else if (verbosity =? 1)%Z then INFO
  else DEBUG.

(** The numbers of the levels in [logging]. *)
Definition levelno (l : Level) : Z :=
  match l with
  | DEBUG => 10 | INFO => 20 | WARNING => 30 | ERROR => 40 | CRITICAL => 50
  end.

(** [Logger.isEnabledFor] for a logger set to [logger_level]. *)
Definition isEnabledFor (logger_level l : Level) : bool :=
  (levelno logger_level <=? levelno l)%Z.

(** The [debug_mode] property, from the verbosity. *)
Definition debug_mode_of (verbosity : Z) : bool :=
  match config_verbosity verbosity with DEBUG => true | _ => false end.

(** ** Guarded operations *)

Definition exit_with_success {A} (msg : option string) (self : Self)
    : Self * Outcome A :=
  exit EX_OK msg None self.

(** The arguments [upgrade_system] reads. *)
Record Args : Type := mkArgs {
  assume_no : bool;
  assume_yes : bool;
  no_commit : bool;
  commit_message : string
}.

Section Operations.

(** Taken as given: [NAME], the two TTY flags of the class that [Self]
    does not hold, the descriptor of the commit message, and the prompt
    prefix that [get_changes_stat_str] computes from the diff. *)
Variable NAME : string.
Variable STDIN_IS_A_TTY : bool.
Variable STDOUT_IS_A_TTY : bool.
Variable COMMIT_MSG_W_FD : Z.
Variable changes_stat_str : string.
(** [repr] of a string, as the [=] specifier of an f-string prints it. *)
Variable repr : string -> string.

Definition get_commit_msg (args : Args) (diff : string) : string :=
  let header := NAME ++ ": Auto commit" ++ NL ++ NL in
  let user_msg := commit_message args in
  let user_msg := if truthy user_msg then user_msg ++ NL ++ NL
                  else user_msg in
  let updates := clear_color diff in
  header ++ user_msg ++ updates.

(** [upgrade_system]; [typed] is what [input()] returns, [None] for an
    [EOFError].  The [synsignals.handle()] of the decorator is recorded,
    as in [poll_loop]; [sys.stdout.write] is recorded as a write to
    descriptor 1. *)
Definition upgrade_system (args : Args) (diff closure : string)
    (typed : option string) (self : Self) : Self * Outcome unit :=
  let self0 := log EvHandle self in
  let ANSWER_NO := "n" in
  let ANSWER_YES := "y" in
  let prompt := changes_stat_str ++ ". "
                ++ "Upgrade system? ([" ++ ANSWER_NO ++ "]/" ++ ANSWER_YES
                ++ "): " in
  let assume_answer := assume_no args || assume_yes args in
  let self1 :=
    if STDIN_IS_A_TTY && negb assume_answer then
      if STDOUT_IS_A_TTY then log (EvWrite 1 (encode prompt)) self0
      else if STDERR_IS_A_TTY self0 then log (EvStderrWrite prompt) self0
           else self0
    else self0 in
  let answer :=
    if assume_no args then ANSWER_NO
    else if assume_yes args then ANSWER_YES
         else match typed with
              | Some a => a
              | None => ANSWER_NO
              end in
  let self2 := log (EvLog WARNING (prompt ++ answer)) self1 in
  if decide (upper answer = "Y") then
    let self3 := log (EvLog INFO "switching to upgraded system...") self2 in
    match run_privileged_task "upgrade" [closure] self3 with
    | (self4, Ret upgrade) =>
        let after_commit : Self * Outcome unit :=
          if negb (no_commit args) && bool_decide (upgrade = "OK") then
            let self5 :=
              log (EvWrite COMMIT_MSG_W_FD (encode (get_commit_msg args diff)))
                  self4 in
            match run_privileged_task "commit" [] self5 with
            | (self6, Ret commit) =>
                if decide (commit = "OK")
                then (log (EvLog WARNING "flake repo committed") self6, Ret tt)
                else (log (EvLog ERROR
                            "flake repo committing subprocess error") self6,
                      Ret tt)
            | (self6, Exit code) => (self6, Exit code)
            | (self6, AssertionError) => (self6, AssertionError)
            end
          else (self4, Ret tt) in
        match after_commit with
        | (self7, Ret _) =>
            if decide (upgrade = "OK")
            then exit_with_success (Some "system upgraded") self7
            else exit_with_error (Some "switching to upgraded system error")
                                 EXIT_ERR_CODE self7
        | r => r
        end
    | (self4, Exit code) => (self4, Exit code)
    | (self4, AssertionError) => (self4, AssertionError)
    end
  else exit_with_success (Some "nothing changed") self2.

(** [build_nixos_system]; the result is the value assigned to
    [upgraded_system_closure].  [nixos_config] is
    [f"{TMP_DIR}#{NIXOS_CONFIG_FLAKE_OUT}"]. *)
Definition build_nixos_system (TMP_DIR HOSTNAME : string) (self : Self)
    : Self * Outcome string :=
  let self0 := log EvHandle self in
  let nixos_config :=
    TMP_DIR ++ "#" ++ "nixosConfigurations." ++ HOSTNAME
    ++ ".config.system.build.toplevel" in
  let self1 := log (EvLog DEBUG ("nixos_config=" ++ repr nixos_config))
                   self0 in
  let self2 := log (EvLog INFO "building nixos system...") self1 in
  match run_privileged_task "build" [nixos_config] self2 with
  | (self3, Ret build) =>
      let checked : Self * Outcome unit :=
        if decide (build = "OK") then (log (EvLog INFO "ok") self3, Ret tt)
        else exit_with_error (Some "building nixos system subprocess error")
                             EXIT_ERR_CODE self3 in
      match checked with
      | (self4, Ret _) =>
          let '(self5, closure) := readline_from_worker self4 in
          (log (EvLog DEBUG ("self.upgraded_system_closure="
                             ++ repr closure)) self5,
           Ret closure)
      | (self4, Exit code) => (self4, Exit code)
      | (self4, AssertionError) => (self4, AssertionError)
      end
  | (self3, Exit code) => (self3, Exit code)
  | (self3, AssertionError) => (self3, AssertionError)
  end.

End Operations.

(** ** More vocabulary and samples *)

(** What [run_cmd] collects from a child: every line of every turn and
    the tail, each passed through [filter]. *)
Definition collected (filter : string -> string) (c : Child) : string :=
  fold_left (fun acc line => acc ++ filter line) (concat (polls c)) ""
  ++ filter (tail c).

(** What a trace wrote to one descriptor. *)
Definition written_to (fd : Z) (t : list Event) : list (list Byte.byte) :=
  omap (fun e => match e with
                 | EvWrite fd' d => if decide (fd' = fd) then Some d else None
                 | _ => None
                 end) t.

(** A worker that answers an upgrade and then a commit. *)
Definition upgrade_worker (upgrade commit : string) : list (option string) :=
  [Some (PONG ++ NL); Some (upgrade ++ NL);
   Some (PONG ++ NL); Some (commit ++ NL)].

Definition yes_args : Args := mkArgs false true false "".

End NixosUpgrade.

(* ===================================================================== *)
(** * Properties of the signal registry *)
(* ===================================================================== *)

Section SetFacts.

Import Synsignals.

(** ** The loops of [set] *)

Lemma keys_elem (signals : gmap Z (option Handler)) (s : Z) :
  s ∈ keys signals <-> is_Some (signals !! s).
Proof.
  unfold keys. rewrite list_elem_of_fmap. split.
  - intros [[k v] [-> Hin]]. apply elem_of_map_to_list in Hin. eauto.
  - intros [v Hv]. exists (s, v). split; [done|].
    by apply elem_of_map_to_list.
Qed.

Lemma preserve_loop_lookup p st (ks : list Z)
    (m : gmap Z (option Handler)) (s : Z) :
  preserve_loop p st m ks !! s =
    if bool_decide (s ∈ ks) && preserve p st s
    then Some (getsignal st s) else m !! s.
Proof.
  revert m. induction ks as [|k ks IH]; intros m; [done|].
  unfold preserve_loop in *. cbn [foldl]. rewrite IH.
  destruct (decide (s = k)) as [->|Hne].
  - rewrite (bool_decide_eq_true_2 (k ∈ k :: ks)) by apply list_elem_of_here.
    destruct (preserve p st k) eqn:Hp.
    + rewrite lookup_insert_eq. by destruct (bool_decide (k ∈ ks)).
    + by rewrite !andb_false_r.
  - assert (bool_decide (s ∈ k :: ks) = bool_decide (s ∈ ks)) as ->.
    { apply bool_decide_ext. rewrite elem_of_cons. tauto. }
    destruct (bool_decide (s ∈ ks) && preserve p st s); [done|].
    destruct (preserve p st k); [|done]. by rewrite lookup_insert_ne.
Qed.

Lemma install_loop_fields (ks : list Z) (st : State) :
  _signals (install_loop ks st) = _signals st
  /\ _signums (install_loop ks st) = _signums st
  /\ _pending_signals (install_loop ks st) = _pending_signals st
  /\ _handling_blocked (install_loop ks st) = _handling_blocked st
  /\ sigmask (install_loop ks st) = sigmask st
  /\ trace (install_loop ks st)
     = trace st ++ List.map (fun s => EvSignal s _register_signal) ks.
Proof.
  revert st. induction ks as [|k ks IH]; intros st.
  - cbn. by rewrite app_nil_r.
  - unfold install_loop in *. cbn [foldl List.map].
    destruct (IH (signal_signal k _register_signal st))
      as (H1 & H2 & H3 & H4 & H5 & H6).
    rewrite H1, H2, H3, H4, H5, H6. cbn. by rewrite <- app_assoc.
Qed.

Lemma install_loop_disposition (ks : list Z) (st : State) (s : Z) :
  disposition (install_loop ks st) !! s =
    if bool_decide (s ∈ ks) then Some _register_signal
    else disposition st !! s.
Proof.
  revert st. induction ks as [|k ks IH]; intros st; [done|].
  unfold install_loop in *. cbn [foldl]. rewrite IH. cbn.
  destruct (decide (s = k)) as [->|Hne].
  - rewrite (bool_decide_eq_true_2 (k ∈ k :: ks)) by apply list_elem_of_here.
    rewrite lookup_insert_eq. by destruct (bool_decide (k ∈ ks)).
  - assert (bool_decide (s ∈ k :: ks) = bool_decide (s ∈ ks)) as ->.
    { apply bool_decide_ext. rewrite elem_of_cons. tauto. }
    by rewrite lookup_insert_ne.
Qed.

Lemma preserve_sigmask p how ks st s :
  preserve p (pthread_sigmask how ks st) s = preserve p st s.
Proof. by destruct p. Qed.


(** A first [set] with a non-empty mapping returns, and each entry of the
    registry is the current disposition where the policy preserves it and
    the caller's value elsewhere. *)
Lemma set_registry_entry st (signals : gmap Z (option Handler)) p :
  _signals st = None -> signals <> ∅ ->
  exists st1 registry,
    set signals p st = (st1, Ret tt)
    /\ _signals st1 = Some registry
    /\ _signums st1 = Some (keys signals)
    /\ _handling_blocked st1 = _handling_blocked st
    /\ _pending_signals st1 = _pending_signals st
    /\ (forall s h, signals !! s = Some h ->
          registry !! s
          = Some (if preserve p st s then getsignal st s else h))
    /\ (forall s, signals !! s = None -> registry !! s = None)
    /\ (forall s, is_Some (signals !! s) ->
          disposition st1 !! s = Some _register_signal).
Proof.
  intros Hnone Hne. unfold set.
  destruct (decide (signals = ∅)) as [?|_]; [done|]. rewrite Hnone.
  eexists _, _. split; [reflexivity|].
  set (st1 := pthread_sigmask SIG_BLOCK (keys signals) st).
  set (reg := preserve_loop p st1 signals (keys signals)).
  destruct (install_loop_fields (keys signals)
              (with_registry reg (keys signals) st1))
    as (H1 & H2 & H3 & H4 & _ & _).
  cbn [pthread_sigmask log _signals _signums _handling_blocked
       _pending_signals disposition].
  rewrite H1, H2, H3, H4. cbn.
  repeat split; try reflexivity.
  - intros s h Hs. subst reg. rewrite preserve_loop_lookup.
    subst st1. rewrite preserve_sigmask.
    rewrite bool_decide_eq_true_2 by (apply keys_elem; eauto).
    cbn. by destruct (preserve p st s); [|rewrite Hs].
  - intros s Hs. subst reg. rewrite preserve_loop_lookup.
    rewrite bool_decide_eq_false_2; [done|].
    rewrite keys_elem, Hs. by intros [? ?].
  - intros s Hs. rewrite install_loop_disposition.
    by rewrite bool_decide_eq_true_2 by (by apply keys_elem).
Qed.

(** ** The preserve policy *)


(** ** A second installation *)


End SetFacts.

Section SynsignalsFacts.

Import Synsignals.

Variable callee : nat -> Z -> Frame -> CallResult.
Variable default_action : Z -> Action.

Local Abbreviation handle := (handle callee default_action).
Local Abbreviation dispatch := (dispatch callee default_action).
Local Abbreviation handle_loop := (handle_loop callee default_action).
Local Abbreviation unblock_handling := (unblock_handling callee default_action).
Local Abbreviation replay_default := (replay_default default_action).
Local Abbreviation step := (step callee default_action).
Local Abbreviation run := (run callee default_action).
Local Abbreviation entry_outcome := (entry_outcome callee default_action).
Local Abbreviation entry_returns := (entry_returns callee default_action).
Local Abbreviation reached := (reached callee default_action).
Local Abbreviation drain_outcome := (drain_outcome callee default_action).

(** ** Suspension *)

Lemma handle_suspended st :
  _handling_blocked st = true -> handle st = (st, Ret tt).
Proof. intros H. unfold Synsignals.handle. by rewrite H. Qed.

Lemma register_signal_flag s f st :
  _handling_blocked (register_signal s f st).1 = _handling_blocked st.
Proof.
  unfold register_signal, _block, _unblock.
  destruct (_signums st) eqn:E; cbn; by rewrite ?E.
Qed.

Lemma set_flag (signals : gmap Z (option Handler)) p st :
  _handling_blocked st = true ->
  _handling_blocked (set signals p st).1 = true.
Proof.
  intros Hb. unfold set. destruct (decide (signals = ∅)); [done|].
  destruct (_signals st) eqn:Hs; [done|].
  cbn [fst pthread_sigmask log _handling_blocked].
  destruct (install_loop_fields (keys signals)
    (with_registry
       (preserve_loop p (pthread_sigmask SIG_BLOCK (keys signals) st)
          signals (keys signals))
       (keys signals) (pthread_sigmask SIG_BLOCK (keys signals) st)))
    as (_ & _ & _ & H4 & _).
  by rewrite H4.
Qed.

Lemma step_keeps_suspended op st :
  op <> CallUnblockHandling -> _handling_blocked st = true ->
  _handling_blocked (step op st).1 = true.
Proof.
  intros Hop Hb. destruct op; cbn [Synsignals.step]; try done.
  - by apply set_flag.
  - by rewrite handle_suspended.
  - unfold get_pending_signals, _block, _unblock.
    destruct (_signums st) eqn:E; cbn; by rewrite ?E.
  - unfold deliver. destruct (getsignal st signum) as [[]|]; try done.
    by rewrite register_signal_flag.
Qed.

Lemma run_keeps_suspended ops st :
  Forall (fun op => op <> CallUnblockHandling) ops ->
  _handling_blocked st = true ->
  _handling_blocked (run ops st) = true.
Proof.
  intros Hops. revert st.
  induction Hops as [|op ops Hop _ IH]; intros st Hb; [done|].
  unfold Synsignals.run in *. cbn [foldl].
  apply IH. by apply step_keeps_suspended.
Qed.

(** C10: [set] with an empty mapping returns normally in every state, an
    installed one included; it changes nothing but the suspension flag,
    which it sets (no signal registered, no disposition preserved or
    changed, no call into the [signal] module); and from then on, through
    any operations other than [unblock_handling], the flag stays set and
    [handle] returns at once leaving the state as it is. *)
Theorem set_empty_only_suspends st p (ops : list Op) :
  Forall (fun op => op <> CallUnblockHandling) ops ->
  set ∅ p st = (with_blocked true st, Ret tt)
  /\ _signals (set ∅ p st).1 = _signals st
  /\ _signums (set ∅ p st).1 = _signums st
  /\ _pending_signals (set ∅ p st).1 = _pending_signals st
  /\ disposition (set ∅ p st).1 = disposition st
  /\ sigmask (set ∅ p st).1 = sigmask st
  /\ trace (set ∅ p st).1 = trace st
  /\ _handling_blocked (set ∅ p st).1 = true
  /\ _handling_blocked (run ops (set ∅ p st).1) = true
  /\ handle (run ops (set ∅ p st).1) = (run ops (set ∅ p st).1, Ret tt).
Proof.
  intros Hops.
  assert (Hset : set ∅ p st = (with_blocked true st, Ret tt)).
  { unfold set. by destruct (decide _). }
  rewrite Hset. cbn [fst]. repeat split.
  - by apply run_keeps_suspended.
  - apply handle_suspended. by apply run_keeps_suspended.
Qed.

(** ** Dispatch of one entry *)

Lemma dispatches_app (t1 t2 : list Event) :
  dispatches (t1 ++ t2) = dispatches t1 ++ dispatches t2.
Proof. apply List.filter_app. Qed.

Lemma installed_sigmask registry how ks st :
  installed registry st -> installed registry (pthread_sigmask how ks st).
Proof. intros (H1 & H2 & H3 & H4). by repeat split. Qed.

Lemma installed_with_pending registry q st :
  installed registry st -> installed registry (with_pending q st).
Proof. intros (H1 & H2 & H3 & H4). by repeat split. Qed.

Lemma installed_with_blocked registry b st :
  installed registry st -> installed registry (with_blocked b st).
Proof. intros (H1 & H2 & H3 & H4). by repeat split. Qed.

Lemma installed_log registry e st :
  installed registry st -> installed registry (log e st).
Proof. intros (H1 & H2 & H3 & H4). by repeat split. Qed.

Lemma dispatch_installed registry st (s : Z) (f : Frame) :
  installed registry st ->
  (dispatch s f st).2 = entry_outcome registry (s, f)
  /\ dispatches (trace (dispatch s f st).1)
     = dispatches (trace st) ++ entry_dispatch registry (s, f)
  /\ _pending_signals (dispatch s f st).1 = _pending_signals st
  /\ _handling_blocked (dispatch s f st).1 = _handling_blocked st
  /\ _signums (dispatch s f st).1 = _signums st
  /\ ((dispatch s f st).2 = Ret tt -> installed registry (dispatch s f st).1).
Proof.
  intros Hinst. pose proof Hinst as (Hreg & Hks & Hdisp & Hself).
  unfold Synsignals.dispatch, Synsignals.entry_outcome, entry_dispatch.
  rewrite Hreg. cbn [fst snd].
  destruct (registry !! s) as [[h|]|] eqn:Hs; cbn [fst snd];
    rewrite ?app_nil_r; try done.
  destruct h; cbn [fst snd]; rewrite ?app_nil_r; try done.
  - (* SIG_DFL *)
    assert (Hprev : getsignal st s = Some _register_signal).
    { apply Hdisp. by rewrite Hs. }
    unfold Synsignals.replay_default, default_delivery. rewrite Hprev.
    destruct (bool_decide _), (ends_process (default_action s));
      cbn; rewrite ?dispatches_app; cbn; rewrite ?app_nil_r;
      repeat split; try done.
    all: intros s0 Hs0; cbn;
      (destruct (decide (s0 = s)) as [->|Hne];
       [by rewrite lookup_insert_eq
       |rewrite !lookup_insert_ne by done; by apply Hdisp]).
  - (* default_int_handler *)
    cbn. rewrite dispatches_app. by repeat split.
  - (* the deferring handler itself *)
    exfalso. by apply (Hself s).
  - (* an application callable *)
    unfold call. destruct (callee id s f); cbn; rewrite dispatches_app;
      repeat split; done.
Qed.

(** ** The drain *)

Lemma handle_loop_installed registry (q : list (Z * Frame)) :
  forall (fuel : nat) st,
    installed registry st -> _pending_signals st = q ->
    (length q <= fuel)%nat ->
    (handle_loop fuel st).2 = drain_outcome registry q
    /\ dispatches (trace (handle_loop fuel st).1)
       = dispatches (trace st)
         ++ concat (List.map (entry_dispatch registry) (reached registry q))
    /\ _pending_signals (handle_loop fuel st).1
       = drop (length (reached registry q)) q
    /\ _handling_blocked (handle_loop fuel st).1 = _handling_blocked st
    /\ _signums (handle_loop fuel st).1 = _signums st.
Proof.
  induction q as [|[s f] q IH]; intros fuel st Hinst Hq Hfuel.
  - destruct fuel; cbn; rewrite Hq; cbn; by rewrite app_nil_r.
  - destruct fuel as [|fuel]; [cbn in Hfuel; lia|].
    cbn [Synsignals.handle_loop]. rewrite Hq.
    pose proof (dispatch_installed registry (with_pending q st) s f
                  (installed_with_pending _ _ _ Hinst))
      as (Hout & Htr & Hpend & Hflag & Hsn & Hnext).
    cbn [Synsignals.drain_outcome Synsignals.reached].
    unfold Synsignals.entry_returns.
    destruct (dispatch s f (with_pending q st)) as [st1 r] eqn:Hd.
    cbn [fst snd] in *. rewrite <- Hout. cbn [with_pending _signums] in Hsn.
    destruct r as [[]|e|k|].
    + destruct (IH fuel st1 (Hnext eq_refl) Hpend ltac:(cbn in Hfuel; lia))
        as (H1 & H2 & H3 & H4 & H5).
      rewrite H1, H2, H3, H4, H5, Htr, Hflag, Hsn. cbn.
      by rewrite <- app_assoc.
    + cbn. rewrite Htr, Hpend, Hflag, Hsn, app_nil_r, drop_0. done.
    + cbn. rewrite Htr, Hpend, Hflag, Hsn, app_nil_r, drop_0. done.
    + cbn. rewrite Htr, Hpend, Hflag, Hsn, app_nil_r, drop_0. done.
Qed.

Lemma drain_outcome_converges registry (q : list (Z * Frame)) :
  (forall s, registry !! s <> Some (Some _register_signal)) ->
  drain_outcome registry q <> Diverges.
Proof.
  intros Hself. induction q as [|[s f] q IH]; [done|].
  cbn. unfold Synsignals.entry_outcome. cbn.
  destruct (registry !! s) as [[h|]|] eqn:Hs; try done.
  destruct h; try done.
  - by destruct (ends_process _).
  - by destruct (Hself s).
  - by destruct (callee id s f).
Qed.

Lemma reached_all registry (q : list (Z * Frame)) :
  forallb (entry_returns registry) q = true ->
  reached registry q = q /\ drain_outcome registry q = Ret tt.
Proof.
  induction q as [|e q IH]; [done|]. cbn.
  unfold Synsignals.entry_returns at 1 3.
  destruct (entry_outcome registry e) as [[]| | |]; try done.
  cbn. intros H. destruct (IH H) as [-> ->]. done.
Qed.

(** [handle] on an installed registry that is not suspended. *)
Lemma handle_installed registry st :
  installed registry st -> _handling_blocked st = false ->
  (handle st).2 = drain_outcome registry (_pending_signals st)
  /\ dispatches (trace (handle st).1)
     = dispatches (trace st)
       ++ concat (List.map (entry_dispatch registry)
                    (reached registry (_pending_signals st)))
  /\ _pending_signals (handle st).1
     = drop (length (reached registry (_pending_signals st)))
            (_pending_signals st).
Proof.
  intros Hinst Hb. unfold Synsignals.handle. rewrite Hb.
  destruct Hinst as (Hreg & (ks & Hks & Hdom) & Hdisp & Hself).
  assert (Hinst : installed registry st) by (split; eauto).
  unfold _block. rewrite Hks.
  set (st1 := pthread_sigmask SIG_BLOCK ks st).
  destruct (handle_loop_installed registry (_pending_signals st)
              (length (_pending_signals st1)) st1)
    as (H1 & H2 & H3 & H4 & H5); [by apply installed_sigmask|done|done|].
  pose proof (drain_outcome_converges registry (_pending_signals st)
                ltac:(apply Hinst)) as Hconv.
  destruct (handle_loop _ st1) as [st2 r]. cbn [fst snd] in *.
  rewrite <- H1 in *. unfold _unblock.
  assert (H5' : _signums st2 = Some ks) by (by rewrite H5).
  destruct r as [[]|e|k|]; rewrite ?H5'; cbn [fst snd];
    cbn [pthread_sigmask log trace _pending_signals];
    rewrite ?dispatches_app, ?H2, ?H3; cbn; rewrite ?dispatches_app;
    cbn; rewrite ?app_nil_r; done.
Qed.

(** ** While suspended *)

Lemma step_suspended registry (op : Op) st :
  installed registry st -> _handling_blocked st = true ->
  no_resume registry op ->
  installed registry (step op st).1
  /\ _handling_blocked (step op st).1 = true
  /\ dispatches (trace (step op st).1) = dispatches (trace st)
  /\ _pending_signals (step op st).1 = _pending_signals st ++ arrivals [op].
Proof.
  intros Hinst Hb Hop.
  destruct Hinst as (Hreg & (ks & Hks & Hdom) & Hdisp & Hself).
  assert (Hinst : installed registry st) by (split; eauto).
  destruct op as [m p| | | | |s f]; cbn [Synsignals.step arrivals omap];
    rewrite ?app_nil_r.
  - unfold set. destruct (decide (m = ∅)).
    + cbn. split; [by apply installed_with_blocked|done].
    + by rewrite Hreg.
  - by rewrite handle_suspended.
  - unfold get_pending_signals, _block, _unblock. rewrite Hks. cbn.
    rewrite Hks. cbn. rewrite !dispatches_app. cbn. rewrite !app_nil_r.
    split; [|done]. split; [done|]. split; [by exists ks|done].
  - cbn. split; [by apply installed_with_blocked|done].
  - done.
  - cbn in Hop. unfold deliver.
    assert (getsignal st s = Some _register_signal) as -> by by apply Hinst.
    unfold register_signal, _block, _unblock. rewrite Hks. cbn.
    rewrite Hks. cbn. rewrite !dispatches_app. cbn. rewrite !app_nil_r.
    split; [|done]. split; [done|]. split; [by exists ks|done].
Qed.

Lemma run_suspended registry (ops : list Op) :
  forall st,
    installed registry st -> _handling_blocked st = true ->
    Forall (no_resume registry) ops ->
    installed registry (run ops st)
    /\ _handling_blocked (run ops st) = true
    /\ dispatches (trace (run ops st)) = dispatches (trace st)
    /\ _pending_signals (run ops st) = _pending_signals st ++ arrivals ops.
Proof.
  induction ops as [|op ops IH]; intros st Hinst Hb Hops.
  - cbn. by rewrite app_nil_r.
  - apply Forall_cons in Hops as [Hop Hops].
    destruct (step_suspended registry op st Hinst Hb Hop)
      as (Hi & Hf & Ht & Hp).
    destruct (IH _ Hi Hf Hops) as (Hi' & Hf' & Ht' & Hp').
    unfold Synsignals.run in *. cbn [foldl].
    rewrite Ht', Hp', Ht, Hp.
    split; [done|]. split; [done|]. split; [done|].
    rewrite <- app_assoc. f_equal.
    unfold arrivals. cbn [omap]. by destruct op.
Qed.

(** C1, amended: on an installed registry that is suspended, whatever is
    called short of [unblock_handling] and whichever monitored signals
    arrive, nothing is dispatched (no handler call, no re-raise) and the
    arrivals are appended to the queue in order.  [unblock_handling] then
    drains at once, oldest entry first, each entry it gets to exactly
    once: it gets to the entries up to and including the first whose
    dispatch does not return (the handler raises, or the default action
    ends the process), the entries after that one stay queued, and the
    call ends as that dispatch ended.  When every dispatch returns, all
    the entries are dispatched, the queue is left empty and the call
    returns. *)
Theorem suspended_signals_wait_for_resume registry st (ops : list Op) :
  installed registry st -> _handling_blocked st = true ->
  Forall (no_resume registry) ops ->
  let st1 := run ops st in
  let q := _pending_signals st ++ arrivals ops in
  let st2 := (unblock_handling st1).1 in
  dispatches (trace st1) = dispatches (trace st)
  /\ _pending_signals st1 = q
  /\ dispatches (trace st2)
     = dispatches (trace st1)
       ++ concat (List.map (entry_dispatch registry) (reached registry q))
  /\ _pending_signals st2 = drop (length (reached registry q)) q
  /\ (unblock_handling st1).2 = drain_outcome registry q
  /\ (forallb (entry_returns registry) q = true ->
      reached registry q = q
      /\ (unblock_handling st1).2 = Ret tt
      /\ _pending_signals st2 = []).
Proof.
  intros Hinst Hb Hops st1 q st2.
  destruct (run_suspended registry ops st Hinst Hb Hops)
    as (Hi & Hf & Ht & Hp).
  fold st1 in Hi, Hf, Ht, Hp. fold q in Hp.
  destruct (handle_installed registry (with_blocked false st1))
    as (H1 & H2 & H3); [by apply installed_with_blocked|done|].
  cbn [with_blocked _pending_signals trace] in H1, H2, H3.
  rewrite Hp in H1, H2, H3.
  unfold Synsignals.unblock_handling in *. subst st2.
  repeat split; try done.
  - by apply reached_all.
  - rewrite H1. by apply reached_all.
  - rewrite H3. destruct (reached_all registry q) as [-> _]; [done|].
    by rewrite drop_all.
Qed.


End SynsignalsFacts.

(** ** The registry at concrete inputs *)

Section SynsignalsExamples.

Import Synsignals.

Lemma term_mapping_lookup (s : Z) :
  is_Some (term_mapping !! s) <-> s = 15.
Proof.
  unfold term_mapping. split.
  - intros [v Hv]. destruct (decide (s = 15)) as [|Hne]; [done|].
    by rewrite lookup_singleton_ne in Hv.
  - intros ->. by rewrite lookup_singleton_eq.
Qed.

Lemma term_mapping_nonempty : term_mapping <> ∅.
Proof.
  intros H. apply (f_equal (fun m => m !! 15)) in H.
  by rewrite lookup_empty in H.
Qed.

Lemma term_suspended_installed : installed term_mapping term_suspended.
Proof.
  split; [reflexivity|]. split; [|split].
  - exists [15]. split; [reflexivity|]. intros s.
    rewrite term_mapping_lookup. rewrite list_elem_of_singleton. done.
  - intros s Hs. apply term_mapping_lookup in Hs as ->. reflexivity.
  - intros s Hs. assert (s = 15) as ->.
    { apply term_mapping_lookup. by rewrite Hs. }
    discriminate Hs.
Qed.

Lemma two_arrivals_no_resume : Forall (no_resume term_mapping) two_arrivals.
Proof.
  repeat constructor; cbn; by apply term_mapping_lookup.
Qed.




Lemma set_empty_only_suspends_witness :
  Forall (fun op => op <> CallUnblockHandling) two_arrivals
  /\ handle always_raises all_terminate
       (run always_raises all_terminate two_arrivals
          (set ∅ AUTO term_installed).1)
     = (run always_raises all_terminate two_arrivals
          (set ∅ AUTO term_installed).1, Ret tt).
Proof.
  assert (H : Forall (fun op => op <> CallUnblockHandling) two_arrivals)
    by (repeat constructor; discriminate).
  split; [exact H|].
  apply (set_empty_only_suspends always_raises all_terminate
           term_installed AUTO two_arrivals H).
Defined.

Lemma suspended_signals_wait_for_resume_witness :
  installed term_mapping term_suspended
  /\ _handling_blocked term_suspended = true
  /\ Forall (no_resume term_mapping) two_arrivals
  /\ dispatches (trace (run always_returns all_terminate two_arrivals
                         term_suspended)) = []
  /\ dispatches
       (trace (unblock_handling always_returns all_terminate
                 (run always_returns all_terminate two_arrivals
                    term_suspended)).1)
     = [EvCall (Callable 1) 15 0%nat; EvCall (Callable 1) 15 1%nat].
Proof.
  split; [exact term_suspended_installed|]. split; [reflexivity|].
  split; [exact two_arrivals_no_resume|].
  destruct (suspended_signals_wait_for_resume always_returns all_terminate
              term_mapping term_suspended two_arrivals
              term_suspended_installed eq_refl two_arrivals_no_resume)
    as (H1 & _ & H3 & _).
  split; [exact H1|]. rewrite H3, H1. reflexivity.
Defined.

(** C1 as stated fails: with a handler that does not return, as the
    program's own, which ends in [sys.exit], the second of two queued
    signals is not dispatched by the resume; it stays queued. *)
Lemma resume_stops_at_raising_handler_counterexample :
  _pending_signals (run always_raises all_terminate two_arrivals
                      term_suspended)
  = [(15, 0%nat); (15, 1%nat)]
  /\ dispatches
       (trace (unblock_handling always_raises all_terminate
                 (run always_raises all_terminate two_arrivals
                    term_suspended)).1)
     = [EvCall (Callable 1) 15 0%nat]
  /\ _pending_signals
       (unblock_handling always_raises all_terminate
          (run always_raises all_terminate two_arrivals term_suspended)).1
     = [(15, 1%nat)]
  /\ (unblock_handling always_raises all_terminate
        (run always_raises all_terminate two_arrivals term_suspended)).2
     = Raise HandlerError.
Proof. by vm_compute. Qed.



End SynsignalsExamples.

(* ===================================================================== *)
(** * Properties of the privileged channel *)
(* ===================================================================== *)

Section ChannelFacts.

Import NixosUpgrade.

Local Open Scope string_scope.
Local Open Scope list_scope.

(** ** Requests *)

Lemma encode_app (a b : string) :
  encode (a ++ b)%string = encode a ++ encode b.
Proof.
  unfold encode, list_byte_of_string.
  induction a as [|c a IH]; [done|].
  change (String c a ++ b)%string with (String c (a ++ b)%string).
  cbn [list_ascii_of_string List.map app].
  by rewrite IH.
Qed.

Lemma encode_join (sep : string) (fields : list string) :
  encode (join sep fields)
  = match List.map encode fields with
    | [] => []
    | f :: rest => f ++ concat (List.map (fun g => encode sep ++ g) rest)
    end.
Proof.
  induction fields as [|f [|g rest] IH]; [done| |].
  - cbn. by rewrite app_nil_r.
  - change (join sep (f :: g :: rest))
      with (f ++ sep ++ join sep (g :: rest))%string.
    rewrite !encode_app, IH. cbn. by rewrite <- app_assoc.
Qed.

(** C7: for every separator and every sequence of fields,
    [write_to_pipe] makes one write, to the outbound descriptor, of
    exactly the bytes of the fields joined by the separator and followed
    by the newline; with separator [|] and fields [build], [/tmp#cfg]
    these are the bytes of [build|/tmp#cfg] and a newline. *)
Theorem write_to_pipe_wire_bytes (cmd : list string) (self : Self) :
  trace (write_to_pipe cmd self)
  = trace self
    ++ [EvWrite (PY_SH_FD self)
          (wire_record (encode (IFS self)) (List.map encode cmd))]
  /\ writes (trace (write_to_pipe ["build"; "/tmp#cfg"] (program [])))
     = [encode ("build|/tmp#cfg" ++ NL)%string].
Proof.
  split; [|reflexivity].
  unfold write_to_pipe, wire_record. cbn [log trace].
  by rewrite encode_app, encode_join.
Qed.


(** ** The liveness handshake *)

Lemma reads_app (t1 t2 : list Event) : reads (t1 ++ t2) = reads t1 ++ reads t2.
Proof. apply omap_app. Qed.

Lemma writes_app (t1 t2 : list Event) :
  writes (t1 ++ t2) = writes t1 ++ writes t2.
Proof. apply omap_app. Qed.

Lemma retries_app (t1 t2 : list Event) :
  retries (t1 ++ t2) = (retries t1 + retries t2)%nat.
Proof. unfold retries. by rewrite List.filter_app, length_app. Qed.

Lemma falsy_empty (s : string) : truthy s = false -> s = "".
Proof. by destruct s. Qed.

Lemma polled_length (n : nat) (stream : list (option string)) :
  (length (polled n stream) <= n)%nat.
Proof.
  revert stream. induction n as [|n IH]; intros stream; [done|].
  cbn [polled]. destruct (readline false stream) as [l rest].
  destruct (truthy (rstrip l)); cbn; [lia|]. specialize (IH rest). lia.
Qed.

(** Only the last line polled can be other than blank. *)
Lemma polled_token (n : nat) (stream : list (option string)) :
  In PONG (polled n stream) <-> List.last (polled n stream) "" = PONG.
Proof.
  revert stream. induction n as [|n IH]; intros stream; [done|].
  cbn [polled]. destruct (readline false stream) as [l rest].
  destruct (truthy (rstrip l)) eqn:Ht.
  - cbn. tauto.
  - apply falsy_empty in Ht. rewrite Ht.
    specialize (IH rest). cbn [In]. rewrite IH.
    destruct (polled n rest) eqn:Hp; cbn [List.last]; [tauto|].
    split; [|by right]. intros [?|?]; [discriminate|done].
Qed.

Lemma pong_loop_spec (n : nat) :
  forall self,
    blocking self = false ->
    (pong_loop n "" self).2 = List.last (polled n (from_worker self)) ""
    /\ reads (trace (pong_loop n "" self).1)
       = reads (trace self) ++ polled n (from_worker self)
    /\ retries (trace (pong_loop n "" self).1)
       = (retries (trace self) + length (polled n (from_worker self)))%nat
    /\ writes (trace (pong_loop n "" self).1) = writes (trace self)
    /\ from_worker (pong_loop n "" self).1 = unpolled n (from_worker self)
    /\ SH_PY_FD (pong_loop n "" self).1 = SH_PY_FD self
    /\ has_spinner (pong_loop n "" self).1 = has_spinner self.
Proof.
  induction n as [|n IH]; intros self Hb.
  - cbn. by rewrite app_nil_r, Nat.add_0_r.
  - cbn [pong_loop polled unpolled]. unfold readline_from_worker.
    cbn [log blocking from_worker]. rewrite Hb.
    destruct (readline false (from_worker self)) as [l rest].
    destruct (truthy (rstrip l)) eqn:Ht.
    + cbn [fst snd log trace with_from_worker from_worker SH_PY_FD
           has_spinner List.last unpolled].
      rewrite !reads_app, !retries_app, !writes_app. cbn.
      rewrite <- !app_assoc, !app_nil_r. repeat split; first [done|lia].
    + pose proof (falsy_empty _ Ht) as He. rewrite He.
      match goal with |- context [pong_loop n "" ?s] =>
        destruct (IH s) as (H1 & H2 & H3 & H4 & H5 & H6 & H7); [done|] end.
      rewrite H1, H2, H3, H4, H5, H6, H7.
      cbn [fst snd log trace with_from_worker from_worker SH_PY_FD
           has_spinner].
      rewrite !reads_app, !retries_app, !writes_app. cbn.
      rewrite ?app_nil_r, <- ?app_assoc. cbn.
      repeat split; try done; try lia.
      by destruct (polled n rest).
Qed.

Lemma write_to_pipe_check_spec (cmd : list string) (self : Self) :
  let lines := polled ATTEMPTS (from_worker self) in
  let r := write_to_pipe_check cmd self in
  r.2 = (if decide (List.last lines "" = PONG) then Ret tt else Exit EXIT_ERR_CODE)
  /\ reads (trace r.1) = reads (trace self) ++ lines
  /\ retries (trace r.1) = (retries (trace self) + length lines)%nat
  /\ writes (trace r.1)
     = writes (trace self)
       ++ [wire_record (encode (IFS self)) (List.map encode cmd)]
  /\ from_worker r.1 = unpolled ATTEMPTS (from_worker self)
  /\ (r.2 = Ret tt -> blocking r.1 = true).
Proof.
  intros lines r. subst r. unfold write_to_pipe_check.
  set (self2 := set_blocking false (write_to_pipe cmd self)).
  destruct (pong_loop_spec ATTEMPTS self2 eq_refl)
    as (H1 & H2 & H3 & H4 & H5 & H6 & H7).
  destruct (pong_loop ATTEMPTS "" self2) as [self3 pong].
  cbn [fst snd] in *.
  change (from_worker self2) with (from_worker self) in H1, H2, H3, H5.
  fold lines in H1, H2, H3, H5.
  set (left_over := unpolled ATTEMPTS (from_worker self)) in *.
  clearbody lines left_over.
  assert (Hw : writes (trace self2)
               = writes (trace self)
                 ++ [wire_record (encode (IFS self)) (List.map encode cmd)]).
  { subst self2. cbn [set_blocking log trace].
    rewrite (proj1 (write_to_pipe_wire_bytes cmd self)).
    rewrite !writes_app. cbn. by rewrite app_nil_r. }
  assert (Hr : reads (trace self2) = reads (trace self)).
  { subst self2. unfold set_blocking, write_to_pipe. cbn [log trace].
    rewrite !reads_app. cbn. by rewrite !app_nil_r. }
  assert (Hs : retries (trace self2) = retries (trace self)).
  { subst self2. unfold set_blocking, write_to_pipe. cbn [log trace].
    rewrite !retries_app. cbn. lia. }
  rewrite Hr in H2. rewrite Hs in H3. rewrite Hw in H4. subst pong.
  destruct (decide (List.last lines "" = PONG)) as [Hp|Hp].
  - unfold set_blocking. cbn [fst snd log trace from_worker blocking].
    rewrite reads_app, retries_app, writes_app. cbn.
    rewrite !app_nil_r, H2, H3, H4, H5. repeat split; first [done|lia].
  - unfold exit_with_error, exit, spinner_stop.
    destruct (decide (EXIT_ERR_CODE = EX_OK)) as [?|_]; [done|].
    unfold set_blocking. cbn [log has_spinner]. rewrite H7.
    destruct (has_spinner self2);
      cbn [fst snd log trace from_worker blocking truthy];
      rewrite ?reads_app, ?retries_app, ?writes_app; cbn;
      rewrite ?app_nil_r, H2, H3, H4, H5; repeat split; first [done|lia].
Qed.


Lemma polled_silent (n : nat) (stream : list (option string)) :
  Forall (eq None) stream -> polled n stream = replicate n "".
Proof.
  revert stream. induction n as [|n IH]; intros stream Hs; [done|].
  cbn [polled replicate]. destruct Hs as [|x rest <- Hrest]; cbn.
  - by rewrite IH.
  - by rewrite IH.
Qed.

Lemma polled_after_silence (k : nat) :
  forall (n : nat) (tok : string) (rest : list (option string)),
    (k < n)%nat -> truthy (rstrip tok) = true ->
    polled n (replicate k None ++ Some tok :: rest)
    = replicate k "" ++ [rstrip tok]
    /\ unpolled n (replicate k None ++ Some tok :: rest) = rest.
Proof.
  induction k as [|k IH]; intros [|n] tok rest Hk Ht; try lia.
  - cbn. by rewrite Ht.
  - cbn [replicate app polled unpolled readline]. cbn [rstrip truthy].
    destruct (IH n tok rest ltac:(lia) Ht) as [-> ->]. done.
Qed.

Lemma readline_after_silence (j : nat) (line : string)
    (rest : list (option string)) :
  readline true (replicate j None ++ Some line :: rest) = (line, rest).
Proof. induction j as [|j IH]; [done|]. cbn. exact IH. Qed.


(** ** Privileged tasks *)


End ChannelFacts.

(** ** The channel at concrete inputs *)

Section ChannelExamples.

Import NixosUpgrade.

Local Open Scope string_scope.
Local Open Scope list_scope.




End ChannelExamples.

(* ===================================================================== *)
(** * Properties of the subprocess supervisor *)
(* ===================================================================== *)

Section SupervisorFacts.

Import NixosUpgrade.

Local Open Scope string_scope.
Local Open Scope list_scope.

Variable strsignal : Z -> string.

Local Abbreviation termination_signal_handler :=
  (termination_signal_handler strsignal).

(** ** Termination *)


End SupervisorFacts.

(** ** The exit-code policy *)

Section ExitCodeFacts.

Import NixosUpgrade.

Local Open Scope string_scope.
Local Open Scope list_scope.

Variable clear_color : string -> string.

Local Abbreviation run_cmd := (run_cmd clear_color).
Local Abbreviation poll_loop := (poll_loop clear_color).
Local Abbreviation read_lines := (read_lines clear_color).

Lemma error_logs_log (e : Event) (self : Self) :
  error_logs (trace (log e self))
  = error_logs (trace self) ++ (if is_error_log e then [e] else []).
Proof.
  unfold error_logs. cbn [log trace]. rewrite List.filter_app. cbn.
  by destruct (is_error_log e).
Qed.

Lemma spinner_start_error_logs (color : string) (self : Self) :
  error_logs (trace (spinner_start color self)) = error_logs (trace self).
Proof.
  unfold spinner_start. destruct (has_spinner self); [|done].
  rewrite error_logs_log. cbn. by rewrite app_nil_r.
Qed.

Lemma spinner_stop_error_logs (self : Self) :
  error_logs (trace (spinner_stop self)) = error_logs (trace self).
Proof.
  unfold spinner_stop. destruct (has_spinner self); [|done].
  rewrite error_logs_log. cbn. by rewrite app_nil_r.
Qed.

Lemma read_lines_frame (no_color : bool) (lines : list string) :
  forall (out : string) (self : Self),
    error_logs (trace (read_lines no_color lines out self).1)
    = error_logs (trace self)
    /\ has_spinner (read_lines no_color lines out self).1 = has_spinner self
    /\ debug_mode (read_lines no_color lines out self).1 = debug_mode self.
Proof.
  induction lines as [|line lines IH]; intros out self; [done|].
  cbn [NixosUpgrade.read_lines].
  match goal with |- context [read_lines no_color lines ?o ?s] =>
    destruct (IH o s) as (H1 & H2 & H3) end.
  rewrite H1, H2, H3.
  destruct (debug_mode self) eqn:Hd; [|done].
  rewrite error_logs_log. cbn. by rewrite app_nil_r.
Qed.

Lemma poll_loop_frame (no_color : bool) (turns : list (list string)) :
  forall (out : string) (self : Self),
    error_logs (trace (poll_loop no_color turns out self).1)
    = error_logs (trace self)
    /\ has_spinner (poll_loop no_color turns out self).1 = has_spinner self
    /\ debug_mode (poll_loop no_color turns out self).1 = debug_mode self.
Proof.
  induction turns as [|lines turns IH]; intros out self; [done|].
  cbn [NixosUpgrade.poll_loop].
  destruct (read_lines_frame no_color lines out (log EvHandle self))
    as (R1 & R2 & R3).
  destruct (read_lines no_color lines out (log EvHandle self))
    as [self2 out2]. cbn [fst] in *.
  destruct (IH out2 (log (EvSleep POLLING_PROC_MS) self2)) as (H1 & H2 & H3).
  cbn [log has_spinner debug_mode] in H2, H3, R2, R3.
  rewrite H1, H2, H3, error_logs_log, R1, R2, R3, error_logs_log. cbn.
  by rewrite !app_nil_r.
Qed.

(** C8: when the child's exit code is the platform's "ok" code,
    [run_cmd] reports no subprocess error (the only report at the error
    level, if any, is the caller's own success message at the level the
    caller chose) and returns the collected output; when it is any other
    code, [run_cmd] always reports the subprocess error, and it ends the
    program, with that code, if and only if [exit_on_error] is set:
    otherwise it returns the collected output. *)
Theorem exit_code_policy (cmd : list string) (desc msg_on_success : string)
    (stderr_out with_spinner exit_on_error : bool) (level : Level)
    (c : Child) (new_pid : Z) (self : Self) :
  let r := run_cmd cmd desc msg_on_success stderr_out with_spinner
             exit_on_error level c new_pid self in
  let report :=
    EvLog ERROR ("`" ++ join " " cmd ++ "` subprocess error")%string in
  (exit_code c = EX_OK ->
     (exists out, r.2 = Ret out)
     /\ error_logs (trace r.1)
        = error_logs (trace self)
          ++ (if truthy msg_on_success
                 && is_error_log (EvLog level msg_on_success)
              then [EvLog level msg_on_success] else []))
  /\ (exit_code c <> EX_OK ->
      error_logs (trace r.1) = error_logs (trace self) ++ [report]
      /\ (exit_on_error = true -> r.2 = Exit (exit_code c))
      /\ (exit_on_error = false -> exists out, r.2 = Ret out)
      /\ (r.2 = Exit (exit_code c) <-> exit_on_error = true)).
Proof.
  intros r report. subst r report. unfold NixosUpgrade.run_cmd.
  set (so := debug_mode self || stderr_out).
  set (self1 := if truthy desc then log (EvLog INFO desc) self else self).
  set (self2 := log (EvLog DEBUG ("> " ++ join " " cmd)%string) self1).
  set (self3 := if negb so && with_spinner then spinner_start "green" self2
                else if so && with_spinner && negb (STDERR_IS_A_TTY self2)
                     then spinner_start "green" self2 else self2).
  set (no_color := negb (colored_stderr self3)).
  set (self5 := with_running_subproc (Some (mkPopen new_pid None c))
                  (log (EvPopen cmd (negb so) no_color) self3)).
  assert (H5 : error_logs (trace self5) = error_logs (trace self)).
  { subst self5. cbn [with_running_subproc trace].
    rewrite error_logs_log. cbn [is_error_log]. rewrite app_nil_r.
    assert (H3 : error_logs (trace self3) = error_logs (trace self2)).
    { subst self3. destruct (negb so && with_spinner);
        [apply spinner_start_error_logs|].
      destruct (so && with_spinner && negb (STDERR_IS_A_TTY self2));
        [apply spinner_start_error_logs|done]. }
    rewrite H3. subst self2. rewrite error_logs_log. cbn [is_error_log].
    rewrite app_nil_r. subst self1. destruct (truthy desc); [|done].
    rewrite error_logs_log. cbn [is_error_log]. by rewrite app_nil_r. }
  destruct (poll_loop_frame no_color (polls c) "" self5) as (P1 & P2 & P3).
  destruct (poll_loop no_color (polls c) "" self5) as [self6 out].
  cbn [fst] in P1, P2, P3. rewrite H5 in P1.
  set (tl := if no_color then clear_color (tail c) else tail c).
  set (self9 := if truthy tl
                   && debug_mode (spinner_stop (with_running_subproc None self6))
                then log (EvStderrWrite tl)
                       (spinner_stop (with_running_subproc None self6))
                else spinner_stop (with_running_subproc None self6)).
  assert (H9 : error_logs (trace self9) = error_logs (trace self)).
  { subst self9.
    assert (H8 : error_logs
                   (trace (spinner_stop (with_running_subproc None self6)))
                 = error_logs (trace self)).
    { by rewrite spinner_stop_error_logs. }
    destruct (truthy tl && debug_mode _); [|done].
    rewrite error_logs_log, H8. cbn [is_error_log]. by rewrite app_nil_r. }
  clearbody self9. split.
  - intros Hok. destruct (decide (exit_code c <> EX_OK)) as [?|_]; [done|].
    cbn [fst snd]. split; [by eexists|].
    rewrite error_logs_log. cbn [is_error_log]. rewrite app_nil_r.
    destruct (truthy msg_on_success); cbn [andb]; [|by rewrite H9, app_nil_r].
    by rewrite error_logs_log, H9.
  - intros Hne. destruct (decide (exit_code c <> EX_OK)) as [_|?]; [|done].
    unfold exit_with_error, exit.
    destruct (decide (exit_code c = EX_OK)) as [?|_]; [done|].
    destruct exit_on_error; cbn [fst snd].
    + rewrite spinner_stop_error_logs, error_logs_log, H9.
      cbn [is_error_log]. by repeat split.
    + rewrite !error_logs_log, H9. cbn [is_error_log]. rewrite app_nil_r.
      split; [done|]. split; [done|]. split; [by eexists|].
      split; discriminate.
Qed.

End ExitCodeFacts.

(** ** The supervisor at concrete inputs *)

Section SupervisorExamples.

Import NixosUpgrade.

Local Open Scope string_scope.
Local Open Scope list_scope.


Lemma exit_code_policy_witness :
  exit_code failing_child <> EX_OK
  /\ exit_code obedient_child = EX_OK
  /\ (run_cmd (fun s => s) ["nvd"; "diff"] "" "" false true true INFO
        failing_child 4242 (program [])).2 = Exit 2
  /\ (exists out,
        (run_cmd (fun s => s) ["nvd"; "diff"] "" "" false true false INFO
           failing_child 4242 (program [])).2 = Ret out)
  /\ (exists out,
        (run_cmd (fun s => s) ["nvd"; "diff"] "" "" false true true INFO
           obedient_child 4242 (program [])).2 = Ret out).
Proof.
  assert (Hne : exit_code failing_child <> EX_OK) by discriminate.
  split; [exact Hne|]. split; [reflexivity|].
  destruct (exit_code_policy (fun s => s) ["nvd"; "diff"] "" "" false true
              true INFO failing_child 4242 (program [])) as [_ Hfail].
  destruct (Hfail Hne) as (_ & Hexit & _).
  destruct (exit_code_policy (fun s => s) ["nvd"; "diff"] "" "" false true
              false INFO failing_child 4242 (program [])) as [_ Hfail'].
  destruct (Hfail' Hne) as (_ & _ & Hret & _).
  destruct (exit_code_policy (fun s => s) ["nvd"; "diff"] "" "" false true
              true INFO obedient_child 4242 (program [])) as [Hok _].
  destruct (Hok eq_refl) as [Hout _].
  split; [exact (Hexit eq_refl)|]. split; [exact (Hret eq_refl)|exact Hout].
Defined.

End SupervisorExamples.

(* ===================================================================== *)
(** * Further properties of the signal registry *)
(* ===================================================================== *)

Section InstallationFacts.

Import Synsignals.



End InstallationFacts.

Section RegistryInvariants.

Import Synsignals.

Variable callee : nat -> Z -> Frame -> CallResult.
Variable default_action : Z -> Action.

Local Abbreviation handle := (handle callee default_action).
Local Abbreviation dispatch := (dispatch callee default_action).
Local Abbreviation handle_loop := (handle_loop callee default_action).
Local Abbreviation unblock_handling := (unblock_handling callee default_action).
Local Abbreviation step := (step callee default_action).
Local Abbreviation run := (run callee default_action).
Local Abbreviation entry_outcome := (entry_outcome callee default_action).
Local Abbreviation entry_returns := (entry_returns callee default_action).
Local Abbreviation reached := (reached callee default_action).
Local Abbreviation drain_outcome := (drain_outcome callee default_action).
Local Abbreviation survives := (survives default_action).
Local Abbreviation add_handling := (add_handling callee default_action).
Local Abbreviation BlockedHandling := (BlockedHandling callee default_action).
Local Abbreviation body_of := (body_of callee default_action).

(** ** The registry stays installed *)

Lemma dispatch_keeps_installed registry st (s : Z) (f : Frame) :
  installed registry st -> survives registry ->
  installed registry (dispatch s f st).1
  /\ (forall k, (dispatch s f st).2 <> Killed k).
Proof.
  intros Hinst Hsurv. pose proof Hinst as (Hreg & Hks & Hdisp & Hself).
  unfold Synsignals.dispatch. rewrite Hreg.
  destruct (registry !! s) as [[h|]|] eqn:Hs; cbn [fst snd]; try done.
  destruct h; cbn [fst snd]; try done.
  - assert (Hprev : getsignal st s = Some _register_signal).
    { apply Hdisp. by rewrite Hs. }
    unfold Synsignals.replay_default, default_delivery.
    rewrite Hprev, (Hsurv s Hs).
    destruct (bool_decide _); cbn [fst snd]; (split; [|done]).
    all: split; [done|]; split; [done|]; split; [|done].
    all: intros s0 Hs0; cbn;
      (destruct (decide (s0 = s)) as [->|Hne];
       [by rewrite lookup_insert_eq
       |rewrite !lookup_insert_ne by done; by apply Hdisp]).
  - by destruct (Hself s).
  - unfold call. by destruct (callee id s f).
Qed.

Lemma handle_loop_keeps_installed registry (fuel : nat) :
  forall st,
    installed registry st -> survives registry ->
    installed registry (handle_loop fuel st).1
    /\ (forall k, (handle_loop fuel st).2 <> Killed k).
Proof.
  induction fuel as [|fuel IH]; intros st Hinst Hsurv.
  - cbn. by destruct (_pending_signals st) as [|[s f] q].
  - cbn [Synsignals.handle_loop].
    destruct (_pending_signals st) as [|[s f] q]; [done|].
    destruct (dispatch_keeps_installed registry (with_pending q st) s f)
      as [Hi Hk]; [by apply installed_with_pending|done|].
    destruct (dispatch s f (with_pending q st)) as [st1 r].
    cbn [fst snd] in *. destruct r as [[]|e|k|]; try done.
    by apply IH.
Qed.

Lemma handle_keeps_installed registry st :
  installed registry st -> survives registry ->
  installed registry (handle st).1
  /\ (forall k, (handle st).2 <> Killed k)
  /\ _handling_blocked (handle st).1 = _handling_blocked st.
Proof.
  intros Hinst Hsurv. unfold Synsignals.handle.
  destruct (_handling_blocked st) eqn:Hb; [done|].
  pose proof Hinst as (Hreg & (ks & Hks & Hdom) & Hdisp & Hself).
  unfold _block. rewrite Hks.
  set (st1 := pthread_sigmask SIG_BLOCK ks st).
  destruct (handle_loop_keeps_installed registry
              (length (_pending_signals st1)) st1)
    as [Hi Hk]; [by apply installed_sigmask|done|].
  destruct (handle_loop_installed callee default_action registry
              (_pending_signals st1) (length (_pending_signals st1)) st1)
    as (_ & _ & _ & H4 & H5); [by apply installed_sigmask|done|done|].
  destruct (handle_loop _ st1) as [st2 r]. cbn [fst snd] in *.
  assert (H5' : _signums st2 = Some ks) by (by rewrite H5).
  unfold _unblock. rewrite H5'.
  destruct r as [[]|e|k|]; cbn [fst snd]; try done.
  - split; [by apply installed_sigmask|]. split; [done|].
    cbn. by rewrite H4.
  - split; [by apply installed_sigmask|]. split; [done|].
    cbn. by rewrite H4.
  - by destruct (Hk k).
  - split; [done|]. split; [done|]. by rewrite H4.
Qed.

Lemma step_keeps_installed registry (op : Op) st :
  installed registry st -> survives registry ->
  installed registry (step op st).1.
Proof.
  intros Hinst Hsurv.
  pose proof Hinst as (Hreg & (ks & Hks & Hdom) & Hdisp & Hself).
  destruct op as [m p| | | | |s f]; cbn [Synsignals.step].
  - unfold set. destruct (decide (m = ∅)).
    + by apply installed_with_blocked.
    + by rewrite Hreg.
  - by apply handle_keeps_installed.
  - unfold get_pending_signals, _block, _unblock. rewrite Hks. cbn.
    rewrite Hks. cbn. split; [done|]. split; [by exists ks|done].
  - by apply installed_with_blocked.
  - apply handle_keeps_installed; [|done]. by apply installed_with_blocked.
  - unfold deliver. destruct (getsignal st s) as [[]|]; try done.
    unfold register_signal, _block, _unblock. rewrite Hks. cbn.
    rewrite Hks. cbn. split; [done|]. split; [by exists ks|done].
Qed.

(** X3: an installed registry stays installed through every sequence of
    operations and deliveries, as long as no replayed default action
    ends the process: the mapping is never replaced (no later [set]
    changes it), the monitored signals stay the same, and after each
    operation every monitored signal has the deferring handler again,
    also after a replay and after a handler that raised. *)
Theorem installed_is_invariant registry (ops : list Op) st :
  installed registry st -> survives registry ->
  installed registry (run ops st).
Proof.
  intros Hinst Hsurv. revert st Hinst.
  induction ops as [|op ops IH]; intros st Hinst; [done|].
  unfold Synsignals.run in *. cbn [foldl]. apply IH.
  by apply step_keeps_installed.
Qed.

(** ** Nothing lost, nothing out of order *)

Lemma reached_drop registry (q : list (Z * Frame)) :
  reached registry q ++ drop (length (reached registry q)) q = q.
Proof.
  induction q as [|e q IH]; [done|]. cbn [Synsignals.reached].
  destruct (entry_returns registry e); cbn; [by rewrite IH|].
  by rewrite drop_0.
Qed.

Lemma step_conserves registry (op : Op) st :
  installed registry st -> monitored_only registry op ->
  exists done,
    _pending_signals st ++ arrivals [op]
    = done ++ _pending_signals (step op st).1
    /\ dispatches (trace (step op st).1)
       = dispatches (trace st)
         ++ concat (List.map (entry_dispatch registry) done).
Proof.
  intros Hinst Hop.
  pose proof Hinst as (Hreg & (ks & Hks & Hdom) & Hdisp & Hself).
  assert (Hdrain : forall st0, installed registry st0 ->
            _pending_signals st0 = _pending_signals st ->
            dispatches (trace st0) = dispatches (trace st) ->
            exists done,
              _pending_signals st ++ [] = done ++ _pending_signals (handle st0).1
              /\ dispatches (trace (handle st0).1)
                 = dispatches (trace st)
                   ++ concat (List.map (entry_dispatch registry) done)).
  { intros st0 Hi Hp Ht. destruct (_handling_blocked st0) eqn:Hb.
    - exists []. rewrite handle_suspended by done.
      cbn. by rewrite Hp, Ht, !app_nil_r.
    - destruct (handle_installed callee default_action registry st0 Hi Hb)
        as (_ & H2 & H3).
      exists (reached registry (_pending_signals st0)).
      rewrite H2, H3, Ht, app_nil_r, <- Hp. split; [|done].
      by rewrite reached_drop. }
  destruct op as [m p| | | | |s f]; cbn [Synsignals.step arrivals omap].
  - exists []. unfold set. destruct (decide (m = ∅)).
    + cbn. by rewrite !app_nil_r.
    + rewrite Hreg. cbn. by rewrite !app_nil_r.
  - by apply Hdrain.
  - exists []. unfold get_pending_signals, _block, _unblock.
    rewrite Hks. cbn. rewrite Hks. cbn.
    rewrite !dispatches_app. cbn. by rewrite !app_nil_r.
  - exists []. cbn. by rewrite !app_nil_r.
  - apply Hdrain; [by apply installed_with_blocked|done..].
  - exists []. cbn in Hop. unfold deliver.
    assert (getsignal st s = Some _register_signal) as -> by by apply Hinst.
    unfold register_signal, _block, _unblock. rewrite Hks. cbn.
    rewrite Hks. cbn. rewrite !dispatches_app. cbn.
    by rewrite !app_nil_r.
Qed.

(** X4: through every sequence of operations on an installed registry
    (drains, suspensions, resumes, peeks, refused installations) and
    deliveries of monitored signals, no queued signal is lost, dispatched
    twice or overtaken: at every moment the entries that were queued or
    have arrived are, in arrival order, the ones the drains got to,
    dispatched in that order, followed by the ones still queued. *)
Theorem arrivals_dispatched_in_order_or_queued registry (ops : list Op) st :
  installed registry st -> survives registry ->
  Forall (monitored_only registry) ops ->
  exists done,
    _pending_signals st ++ arrivals ops
    = done ++ _pending_signals (run ops st)
    /\ dispatches (trace (run ops st))
       = dispatches (trace st)
         ++ concat (List.map (entry_dispatch registry) done).
Proof.
  intros Hinst Hsurv Hops. revert st Hinst.
  induction Hops as [|op ops Hop _ IH]; intros st Hinst.
  - exists []. cbn. by rewrite !app_nil_r.
  - destruct (step_conserves registry op st Hinst Hop) as (d1 & Hq1 & Ht1).
    destruct (IH (step op st).1
                (step_keeps_installed registry op st Hinst Hsurv))
      as (d2 & Hq2 & Ht2).
    exists (d1 ++ d2). unfold Synsignals.run in *. cbn [foldl].
    rewrite Ht2, Ht1, List.map_app, concat_app, <- !app_assoc.
    split; [|done].
    rewrite <- Hq2, app_assoc, <- Hq1, <- app_assoc. f_equal.
    unfold arrivals. cbn [omap]. by destruct op.
Qed.

End RegistryInvariants.

Section CallerFacts.

Import Synsignals.

Variable callee : nat -> Z -> Frame -> CallResult.
Variable default_action : Z -> Action.

Local Abbreviation handle := (handle callee default_action).
Local Abbreviation unblock_handling := (unblock_handling callee default_action).
Local Abbreviation step := (step callee default_action).
Local Abbreviation run := (run callee default_action).
Local Abbreviation entry_returns := (entry_returns callee default_action).
Local Abbreviation reached := (reached callee default_action).
Local Abbreviation drain_outcome := (drain_outcome callee default_action).
Local Abbreviation add_handling := (add_handling callee default_action).
Local Abbreviation BlockedHandling := (BlockedHandling callee default_action).
Local Abbreviation body_of := (body_of callee default_action).

(** ** The decorator *)


(** ** The context manager *)

Lemma handle_keeps_flag registry st :
  installed registry st ->
  _handling_blocked (handle st).1 = _handling_blocked st.
Proof.
  intros Hinst. unfold Synsignals.handle.
  destruct (_handling_blocked st) eqn:Hb; [done|].
  pose proof Hinst as (Hreg & (ks & Hks & Hdom) & Hdisp & Hself).
  unfold _block. rewrite Hks.
  set (st1 := pthread_sigmask SIG_BLOCK ks st).
  destruct (handle_loop_installed callee default_action registry
              (_pending_signals st1) (length (_pending_signals st1)) st1)
    as (_ & _ & _ & H4 & H5); [by apply installed_sigmask|done|done|].
  destruct (Synsignals.handle_loop callee default_action _ st1) as [st2 r].
  cbn [fst snd] in *.
  assert (H5' : _signums st2 = Some ks) by (by rewrite H5).
  unfold _unblock. rewrite H5'.
  destruct r as [[]|e|k|]; cbn; by rewrite H4.
Qed.

(** X6: inside [with BlockedHandling()] nothing is dispatched, whatever
    the body calls short of [unblock_handling] and whichever monitored
    signals arrive; at the exit the queue is drained in arrival order.
    The exit clears the suspension flag even when handling was already
    suspended at the entry: an inner scope ends the suspension of an
    outer one. *)
Theorem blocked_scope_defers_then_resumes registry (ops : list Op) st :
  installed registry st -> Forall (no_resume registry) ops ->
  let inside := run ops (block_handling st).1 in
  let after := (BlockedHandling (body_of ops) st).1 in
  let q := _pending_signals st ++ arrivals ops in
  dispatches (trace inside) = dispatches (trace st)
  /\ _pending_signals inside = q
  /\ dispatches (trace after)
     = dispatches (trace st)
       ++ concat (List.map (entry_dispatch registry) (reached registry q))
  /\ _pending_signals after = drop (length (reached registry q)) q
  /\ _handling_blocked after = false.
Proof.
  intros Hinst Hops inside after q.
  destruct (run_suspended callee default_action registry ops
              (block_handling st).1)
    as (Hi & Hf & Ht & Hp); [by apply installed_with_blocked|done|done|].
  fold inside in Hi, Hf, Ht, Hp. cbn in Ht, Hp. fold q in Hp.
  destruct (handle_installed callee default_action registry
              (with_blocked false inside))
    as (_ & H2 & H3); [by apply installed_with_blocked|done|].
  pose proof (handle_keeps_flag registry (with_blocked false inside)
                (installed_with_blocked _ _ _ Hi)) as H4.
  cbn [with_blocked _pending_signals trace _handling_blocked] in H2, H3, H4.
  rewrite Hp in H2, H3. rewrite Ht in H2.
  subst after. unfold Synsignals.BlockedHandling, Synsignals.body_of.
  fold inside. unfold Synsignals.unblock_handling.
  destruct (handle (with_blocked false inside)) as [st3 r].
  cbn [fst snd] in *. split; [done|]. split; [done|].
  destruct r as [[]|e|k|]; cbn [fst]; done.
Qed.

(** ** Before installation *)

Lemma step_uninstalled (op : Op) st :
  no_install op -> _signals st = None -> _signums st = None ->
  _signals (step op st).1 = None
  /\ _signums (step op st).1 = None
  /\ _pending_signals (step op st).1 = _pending_signals st
  /\ disposition (step op st).1 = disposition st
  /\ sigmask (step op st).1 = sigmask st
  /\ trace (step op st).1 = trace st.
Proof.
  intros Hop Hs Hk.
  destruct op as [m p| | | | |s f]; cbn [Synsignals.step]; cbn in Hop.
  - subst m. unfold set. by destruct (decide _).
  - unfold Synsignals.handle, _block. rewrite Hk.
    by destruct (_handling_blocked st).
  - unfold get_pending_signals, _block. by rewrite Hk.
  - done.
  - unfold Synsignals.unblock_handling, Synsignals.handle, _block.
    cbn. by rewrite Hk.
  - unfold deliver. destruct (getsignal st s) as [[]|]; try done.
    unfold register_signal, _block. by rewrite Hk.
Qed.

(** X7: as long as no [set] with a mapping that is not empty has run,
    the module does nothing through any sequence of calls and
    deliveries: nothing is queued, no disposition or mask changes, no
    call reaches the [signal] module; and [handle] raises [TypeError]
    unless handling is suspended, in which case it returns. *)
Theorem uninstalled_module_is_inert (ops : list Op) st :
  Forall no_install ops -> _signals st = None -> _signums st = None ->
  let st' := run ops st in
  _signals st' = None
  /\ _pending_signals st' = _pending_signals st
  /\ disposition st' = disposition st
  /\ sigmask st' = sigmask st
  /\ trace st' = trace st
  /\ handle st'
     = (st', if _handling_blocked st' then Ret tt else Raise TypeError).
Proof.
  intros Hops. revert st.
  assert (Hrun : forall st, _signals st = None -> _signums st = None ->
            _signals (run ops st) = None
            /\ _signums (run ops st) = None
            /\ _pending_signals (run ops st) = _pending_signals st
            /\ disposition (run ops st) = disposition st
            /\ sigmask (run ops st) = sigmask st
            /\ trace (run ops st) = trace st).
  { induction Hops as [|op ops Hop _ IH]; intros st Hs Hk; [done|].
    destruct (step_uninstalled op st Hop Hs Hk)
      as (H1 & H2 & H3 & H4 & H5 & H6).
    destruct (IH (step op st).1 H1 H2) as (I1 & I2 & I3 & I4 & I5 & I6).
    unfold Synsignals.run in *. cbn [foldl].
    by rewrite I1, I2, I3, I4, I5, I6. }
  intros st Hs Hk st'. destruct (Hrun st Hs Hk) as (H1 & H2 & H3 & H4 & H5 & H6).
  fold st' in H1, H2, H3, H4, H5, H6. repeat (split; [done|]).
  unfold Synsignals.handle, _block. rewrite H2.
  by destruct (_handling_blocked st').
Qed.

(** ** Peeking *)


End CallerFacts.

(** ** The further properties at concrete inputs *)

Section RegistryExamples.

Import Synsignals.

Lemma term_installed_installed : installed term_mapping term_installed.
Proof.
  split; [reflexivity|]. split; [|split].
  - exists [15]. split; [reflexivity|]. intros s.
    rewrite term_mapping_lookup. rewrite list_elem_of_singleton. done.
  - intros s Hs. apply term_mapping_lookup in Hs as ->. reflexivity.
  - intros s Hs. assert (s = 15) as ->.
    { apply term_mapping_lookup. by rewrite Hs. }
    discriminate Hs.
Qed.

Lemma term_mapping_survives (default_action : Z -> Action) :
  survives default_action term_mapping.
Proof.
  intros s Hs. assert (s = 15) as ->.
  { apply term_mapping_lookup. by rewrite Hs. }
  discriminate Hs.
Qed.

Lemma two_arrivals_monitored :
  Forall (monitored_only term_mapping)
         (two_arrivals ++ [CallUnblockHandling; Deliver 15 2%nat]).
Proof. repeat constructor; cbn; by apply term_mapping_lookup. Qed.



Lemma installed_is_invariant_witness :
  installed term_mapping term_suspended
  /\ survives all_terminate term_mapping
  /\ installed term_mapping
       (run always_raises all_terminate
          (two_arrivals ++ [CallUnblockHandling; Deliver 15 2%nat])
          term_suspended).
Proof.
  split; [exact term_suspended_installed|].
  split; [exact (term_mapping_survives all_terminate)|].
  apply (installed_is_invariant always_raises all_terminate term_mapping
           (two_arrivals ++ [CallUnblockHandling; Deliver 15 2%nat])
           term_suspended term_suspended_installed
           (term_mapping_survives all_terminate)).
Defined.

Lemma arrivals_dispatched_in_order_or_queued_witness :
  installed term_mapping term_suspended
  /\ survives all_terminate term_mapping
  /\ Forall (monitored_only term_mapping)
            (two_arrivals ++ [CallUnblockHandling; Deliver 15 2%nat])
  /\ exists done,
       [(15, 0%nat); (15, 1%nat); (15, 2%nat)]
       = done
         ++ _pending_signals
              (run always_returns all_terminate
                 (two_arrivals ++ [CallUnblockHandling; Deliver 15 2%nat])
                 term_suspended)
       /\ dispatches
            (trace (run always_returns all_terminate
                      (two_arrivals ++ [CallUnblockHandling; Deliver 15 2%nat])
                      term_suspended))
          = concat (List.map (entry_dispatch term_mapping) done).
Proof.
  split; [exact term_suspended_installed|].
  split; [exact (term_mapping_survives all_terminate)|].
  split; [exact two_arrivals_monitored|].
  apply (arrivals_dispatched_in_order_or_queued always_returns all_terminate
           term_mapping
           (two_arrivals ++ [CallUnblockHandling; Deliver 15 2%nat])
           term_suspended term_suspended_installed
           (term_mapping_survives all_terminate) two_arrivals_monitored).
Defined.


Lemma blocked_scope_defers_then_resumes_witness :
  installed term_mapping term_suspended
  /\ Forall (no_resume term_mapping) two_arrivals
  /\ _handling_blocked term_suspended = true
  /\ _handling_blocked
       (BlockedHandling always_returns all_terminate
          (body_of always_returns all_terminate two_arrivals)
          term_suspended).1 = false.
Proof.
  split; [exact term_suspended_installed|].
  split; [exact two_arrivals_no_resume|]. split; [reflexivity|].
  apply (blocked_scope_defers_then_resumes always_returns all_terminate
           term_mapping two_arrivals term_suspended
           term_suspended_installed two_arrivals_no_resume).
Defined.

Lemma uninstalled_module_is_inert_witness :
  Forall no_install [CallHandle; Deliver 15 0%nat; CallSet ∅ AUTO;
                     CallUnblockHandling]
  /\ _signals fresh = None /\ _signums fresh = None
  /\ trace (run always_returns all_terminate
              [CallHandle; Deliver 15 0%nat; CallSet ∅ AUTO;
               CallUnblockHandling] fresh) = trace fresh.
Proof.
  assert (H : Forall no_install [CallHandle; Deliver 15 0%nat; CallSet ∅ AUTO;
                                 CallUnblockHandling])
    by (repeat constructor).
  split; [exact H|]. split; [reflexivity|]. split; [reflexivity|].
  apply (uninstalled_module_is_inert always_returns all_terminate _ fresh H
           eq_refl eq_refl).
Defined.


End RegistryExamples.

(* ===================================================================== *)
(** * Properties of the text helpers *)
(* ===================================================================== *)

Section TextFacts.

Import NixosUpgrade.

Local Open Scope string_scope.
Local Open Scope list_scope.

Lemma append_cons (c : ascii) (s t : string) :
  (String c s ++ t)%string = String c (s ++ t)%string.
Proof. reflexivity. Qed.

Lemma append_empty (t : string) : ("" ++ t)%string = t.
Proof. reflexivity. Qed.

Lemma append_empty_r (s : string) : (s ++ "")%string = s.
Proof. induction s as [|c s IH]; [done|]. by rewrite append_cons, IH. Qed.

Lemma append_assoc (a b c : string) :
  ((a ++ b) ++ c)%string = (a ++ (b ++ c))%string.
Proof.
  induction a as [|x a IH]; [done|]. by rewrite !append_cons, IH.
Qed.

(** ** [rstrip] *)

Lemma rstrip_spaces (w : string) :
  all_chars is_space w = true -> rstrip w = "".
Proof.
  induction w as [|c w IH]; [done|]. cbn [all_chars rstrip].
  intros [Hc Hw]%andb_true_iff. by rewrite (IH Hw), Hc.
Qed.

Lemma rstrip_append_spaces (s w : string) :
  all_chars is_space w = true -> rstrip (s ++ w) = rstrip s.
Proof.
  intros Hw. induction s as [|c s IH].
  - rewrite append_empty. by rewrite rstrip_spaces.
  - rewrite append_cons. cbn [rstrip]. by rewrite IH.
Qed.

Lemma rstrip_ends_in_text (s : string) (c : ascii) :
  is_space c = false ->
  rstrip (s ++ String c "") = (s ++ String c "")%string.
Proof.
  intros Hc. induction s as [|a s IH].
  - rewrite append_empty. cbn [rstrip]. by rewrite Hc.
  - rewrite append_cons. cbn [rstrip]. rewrite IH.
    by destruct s.
Qed.

Lemma rstrip_idempotent (s : string) : rstrip (rstrip s) = rstrip s.
Proof.
  induction s as [|c s IH]; [done|]. cbn [rstrip].
  destruct (rstrip s) as [|a r] eqn:Hr.
  - destruct (is_space c) eqn:Hc; [done|]. cbn [rstrip]. by rewrite Hc.
  - cbn [rstrip]. cbn [rstrip] in IH. by rewrite IH.
Qed.

(** X9: [rstrip] removes a trailing run of whitespace of any length (a
    terminator, a carriage return and a terminator, spaces) and nothing
    else: a text that ends in a character that is not whitespace comes
    back as it is, and stripping twice changes nothing more. *)
Theorem rstrip_strips_trailing_whitespace_only (s w : string) (c : ascii) :
  all_chars is_space w = true -> is_space c = false ->
  rstrip ((s ++ String c "") ++ w) = (s ++ String c "")%string
  /\ rstrip (s ++ w) = rstrip s
  /\ rstrip (rstrip s) = rstrip s
  /\ rstrip w = "".
Proof.
  intros Hw Hc. split; [|split; [|split]].
  - by rewrite rstrip_append_spaces, rstrip_ends_in_text.
  - by apply rstrip_append_spaces.
  - apply rstrip_idempotent.
  - by apply rstrip_spaces.
Qed.

(** ** [split] and [join] *)

Lemma split_nonempty (sep : ascii) (s : string) : split sep s <> [].
Proof.
  destruct s as [|c s]; [done|]. cbn [split].
  destruct (Ascii.eqb c sep); [done|]. by destruct (split sep s).
Qed.

Lemma join_cons (sep f : string) (g : string) (rest : list string) :
  join sep (f :: g :: rest) = (f ++ sep ++ join sep (g :: rest))%string.
Proof. reflexivity. Qed.

Lemma join_split (sep : ascii) (s : string) :
  join (String sep "") (split sep s) = s.
Proof.
  induction s as [|c s IH]; [done|]. cbn [split].
  destruct (Ascii.eqb_spec c sep) as [->|Hne].
  - pose proof (split_nonempty sep s) as Hn.
    destruct (split sep s) as [|w ws] eqn:Hs; [done|].
    rewrite join_cons, IH. reflexivity.
  - pose proof (split_nonempty sep s) as Hn.
    destruct (split sep s) as [|w ws] eqn:Hs; [done|].
    destruct ws as [|w' ws].
    + cbn [join] in *. by rewrite IH.
    + rewrite join_cons in *. rewrite append_cons. by rewrite IH.
Qed.

Lemma split_no_sep (sep : ascii) (l : string) :
  all_chars (fun c => negb (Ascii.eqb c sep)) l = true ->
  split sep l = [l].
Proof.
  induction l as [|c l IH]; [done|]. cbn [all_chars split].
  intros [Hc Hl]%andb_true_iff. apply negb_true_iff in Hc.
  by rewrite Hc, (IH Hl).
Qed.

Lemma split_append (sep : ascii) (l r : string) :
  all_chars (fun c => negb (Ascii.eqb c sep)) l = true ->
  split sep (l ++ String sep r) = l :: split sep r.
Proof.
  induction l as [|c l IH].
  - intros _. rewrite append_empty. cbn [split]. by rewrite Ascii.eqb_refl.
  - cbn [all_chars]. intros [Hc Hl]%andb_true_iff.
    apply negb_true_iff in Hc.
    rewrite append_cons. cbn [split]. by rewrite Hc, (IH Hl).
Qed.

Lemma split_join (sep : ascii) (f : string) (fields : list string) :
  Forall (fun g => all_chars (fun c => negb (Ascii.eqb c sep)) g = true)
         (f :: fields) ->
  split sep (join (String sep "") (f :: fields)) = f :: fields.
Proof.
  revert f. induction fields as [|g fields IH]; intros f Hall.
  - apply Forall_cons in Hall as [Hf _]. by apply split_no_sep.
  - apply Forall_cons in Hall as [Hf Hrest].
    rewrite join_cons, append_cons, append_empty.
    rewrite split_append by done. by rewrite IH.
Qed.

(** X10: splitting on a character and joining with it are inverse to
    each other: joining the pieces of any text gives the text back, and
    splitting the join of a sequence of fields, not empty, none of which
    holds the separator, gives the fields back, so that a request written
    by [write_to_pipe] determines its fields. *)
Theorem split_join_round_trip (sep : ascii) (s f : string)
    (fields : list string) :
  Forall (fun g => all_chars (fun c => negb (Ascii.eqb c sep)) g = true)
         (f :: fields) ->
  join (String sep "") (split sep s) = s
  /\ split sep (join (String sep "") (f :: fields)) = f :: fields.
Proof.
  intros Hall. split; [apply join_split|by apply split_join].
Qed.

(** X11: [process_diff] drops the first two lines of the diff and keeps
    the rest as it is; a diff of one or two lines becomes empty. *)
Theorem process_diff_drops_two_lines (l1 l2 rest : string) :
  all_chars (fun c => negb (Ascii.eqb c (ascii_of_nat 10))) l1 = true ->
  all_chars (fun c => negb (Ascii.eqb c (ascii_of_nat 10))) l2 = true ->
  process_diff (l1 ++ NL ++ l2 ++ NL ++ rest) = rest
  /\ process_diff (l1 ++ NL ++ l2) = ""
  /\ process_diff l1 = "".
Proof.
  intros H1 H2. unfold process_diff, NL.
  rewrite !append_cons, !append_empty.
  rewrite !(split_append _ l1) by exact H1.
  rewrite (split_append _ l2) by exact H2.
  rewrite (split_no_sep _ l1) by exact H1.
  rewrite (split_no_sep _ l2) by exact H2.
  cbn [drop]. split; [apply join_split|split; reflexivity].
Qed.

End TextFacts.

Section ColorFacts.

Import NixosUpgrade.

Local Open Scope string_scope.
Local Open Scope list_scope.

(** ** [clear_color] *)

Lemma match_len_not_escape (c : ascii) (r : string) :
  Ascii.eqb c ESC = false -> match_len (String c r) = None.
Proof. intros H. destruct r; cbn [match_len]; by rewrite ?H. Qed.

Lemma sub_from_plain (t s : string) :
  no_escape t = true ->
  sub_from 0 (t ++ s) = (t ++ sub_from 0 s)%string.
Proof.
  induction t as [|c t IH]; [done|]. unfold no_escape in *.
  cbn [all_chars]. intros [Hc Ht]%andb_true_iff.
  apply negb_true_iff in Hc.
  rewrite !append_cons. cbn [sub_from].
  by rewrite (match_len_not_escape c _ Hc), (IH Ht).
Qed.

Lemma params_len_run (p s : string) :
  forall seen : nat,
    all_chars is_param p = true -> (0 < seen + String.length p)%nat ->
    params_len (p ++ String "m" s) seen
    = Some (seen + String.length p + 1)%nat.
Proof.
  induction p as [|c p IH]; intros seen Hp Hpos.
  - rewrite append_empty. cbn [params_len String.length] in *.
    change (is_param "m") with false. cbn [Ascii.eqb andb].
    change (Ascii.eqb "m" "m") with true.
    assert ((0 <? seen)%nat = true) as -> by (apply Nat.ltb_lt; lia).
    cbn. f_equal. lia.
  - cbn [all_chars] in Hp. apply andb_true_iff in Hp as [Hc Hp].
    rewrite append_cons. cbn [params_len String.length]. rewrite Hc.
    rewrite IH by (done || lia). f_equal. lia.
Qed.

Lemma sub_from_skip (a s : string) :
  sub_from (String.length a) (a ++ s) = sub_from 0 s.
Proof.
  induction a as [|c a IH]; [done|].
  rewrite append_cons. cbn [String.length sub_from]. exact IH.
Qed.

Lemma length_append (a b : string) :
  String.length (a ++ b) = (String.length a + String.length b)%nat.
Proof.
  induction a as [|c a IH]; [done|].
  rewrite append_cons. cbn [String.length]. by rewrite IH.
Qed.

Lemma sub_from_sgr (p s : string) :
  all_chars is_param p = true -> p <> "" ->
  sub_from 0 (sgr p ++ s) = sub_from 0 s.
Proof.
  intros Hp Hne. unfold sgr. rewrite !append_cons, append_assoc.
  rewrite append_cons, append_empty.
  assert (Hlen : (0 < String.length p)%nat) by (destruct p; cbn; [done|lia]).
  cbn [sub_from match_len].
  change (Ascii.eqb ESC ESC) with true.
  change (Ascii.eqb "[" "[") with true. cbn [andb].
  rewrite (params_len_run p s 0 Hp) by lia.
  cbn [Nat.add pred sub_from].
  pose proof (sub_from_skip (p ++ "m") s) as Hskip.
  rewrite length_append, append_assoc, append_cons, append_empty in Hskip.
  cbn [String.length] in Hskip. exact Hskip.
Qed.

(** X12: [clear_color] leaves a text without the escape character as it
    is, and it removes a colour code (escape, bracket, one or more digits
    or semicolons, [m]) wherever one follows such a text, going on with
    what comes after the code. *)
Theorem clear_color_strips_codes_only (t p s : string) :
  no_escape t = true -> all_chars is_param p = true -> p <> "" ->
  clear_color t = t
  /\ clear_color (t ++ sgr p ++ s) = (t ++ clear_color s)%string
  /\ clear_color (sgr p ++ t) = t.
Proof.
  intros Ht Hp Hne. unfold clear_color.
  assert (Hplain : sub_from 0 t = t).
  { pose proof (sub_from_plain t "" Ht) as H.
    by rewrite !append_empty_r in H. }
  split; [done|]. split.
  - by rewrite sub_from_plain, sub_from_sgr.
  - by rewrite sub_from_sgr.
Qed.

(** ** Verbosity *)

(** X13: whatever the verbosity, the logger lets error and critical
    messages through, so that no number of [-q] silences an error report;
    raising the verbosity never hides a message that was shown; and the
    debug mode is on exactly from verbosity 2. *)
Theorem verbosity_never_hides_errors (v w : Z) (l : Level) :
  v <= w ->
  isEnabledFor (config_verbosity v) ERROR = true
  /\ isEnabledFor (config_verbosity v) CRITICAL = true
  /\ (isEnabledFor (config_verbosity v) l = true ->
      isEnabledFor (config_verbosity w) l = true)
  /\ (debug_mode_of v = true <-> 2 <= v).
Proof.
  intros Hvw. unfold isEnabledFor, debug_mode_of, config_verbosity.
  destruct (Z.leb_spec v (-1)), (Z.eqb_spec v 0), (Z.eqb_spec v 1),
    (Z.leb_spec w (-1)), (Z.eqb_spec w 0), (Z.eqb_spec w 1);
    try lia; destruct l; cbn; repeat split; try done; try lia.
Qed.

End ColorFacts.

(* ===================================================================== *)
(** * Further properties of the supervisor and of the channel *)
(* ===================================================================== *)

Section CollectedOutput.

Import NixosUpgrade.

Local Open Scope string_scope.
Local Open Scope list_scope.

Variable clear_color : string -> string.
Variable strsignal : Z -> string.

Local Abbreviation run_cmd := (run_cmd clear_color).
Local Abbreviation poll_loop := (poll_loop clear_color).
Local Abbreviation read_lines := (read_lines clear_color).

Lemma read_lines_out (no_color : bool) (lines : list string) :
  forall (out : string) (self : Self),
    (read_lines no_color lines out self).2
    = fold_left (fun acc line =>
                   (acc ++ (if no_color then clear_color line else line))%string)
                lines out
    /\ running_subproc (read_lines no_color lines out self).1
       = running_subproc self
    /\ has_spinner (read_lines no_color lines out self).1 = has_spinner self
    /\ debug_mode (read_lines no_color lines out self).1 = debug_mode self.
Proof.
  induction lines as [|line lines IH]; intros out self; [done|].
  cbn [NixosUpgrade.read_lines fold_left].
  match goal with |- context [read_lines no_color lines ?o ?s] =>
    destruct (IH o s) as (H1 & H2 & H3 & H4) end.
  rewrite H1, H2, H3, H4. by destruct (debug_mode self) eqn:Hd.
Qed.

Lemma poll_loop_out (no_color : bool) (turns : list (list string)) :
  forall (out : string) (self : Self),
    (poll_loop no_color turns out self).2
    = fold_left (fun acc line =>
                   (acc ++ (if no_color then clear_color line else line))%string)
                (concat turns) out
    /\ running_subproc (poll_loop no_color turns out self).1
       = running_subproc self
    /\ has_spinner (poll_loop no_color turns out self).1 = has_spinner self
    /\ debug_mode (poll_loop no_color turns out self).1 = debug_mode self.
Proof.
  induction turns as [|lines turns IH]; intros out self; [done|].
  cbn [NixosUpgrade.poll_loop concat].
  destruct (read_lines_out no_color lines out (log EvHandle self))
    as (R1 & R2 & R3 & R4).
  destruct (read_lines no_color lines out (log EvHandle self))
    as [self2 out2]. cbn [fst snd] in *.
  destruct (IH out2 (log (EvSleep POLLING_PROC_MS) self2))
    as (H1 & H2 & H3 & H4).
  cbn [log running_subproc has_spinner debug_mode] in H2, H3, H4, R2, R3, R4.
  rewrite H1, H2, H3, H4, R1, R2, R3, R4. by rewrite fold_left_app.
Qed.

Lemma colored_stderr_spinner_start (color : string) (self : Self) :
  colored_stderr (spinner_start color self) = colored_stderr self.
Proof. unfold spinner_start. by destruct (has_spinner self). Qed.

Lemma running_subproc_spinner_stop (self : Self) :
  running_subproc (spinner_stop self) = running_subproc self.
Proof. unfold spinner_stop. by destruct (has_spinner self). Qed.

(** What [run_cmd] leaves when it gets past the polling loop. *)
Lemma run_cmd_result (cmd : list string) (desc msg_on_success : string)
    (stderr_out with_spinner exit_on_error : bool) (level : Level)
    (c : Child) (new_pid : Z) (self : Self) :
  let r := run_cmd cmd desc msg_on_success stderr_out with_spinner
             exit_on_error level c new_pid self in
  running_subproc r.1 = None
  /\ r.2 = (if bool_decide (exit_code c <> EX_OK) && exit_on_error
           then Exit (exit_code c)
           else Ret (collected
                       (fun line => if colored_stderr self then line
                                    else clear_color line) c)).
Proof.
  intros r. subst r. unfold NixosUpgrade.run_cmd.
  set (so := debug_mode self || stderr_out).
  set (self1 := if truthy desc then log (EvLog INFO desc) self else self).
  set (self2 := log (EvLog DEBUG ("> " ++ join " " cmd)%string) self1).
  set (self3 := if negb so && with_spinner then spinner_start "green" self2
                else if so && with_spinner && negb (STDERR_IS_A_TTY self2)
                     then spinner_start "green" self2 else self2).
  assert (Hc : colored_stderr self3 = colored_stderr self).
  { subst self3 self2 self1.
    destruct (negb so && with_spinner);
      [|destruct (so && with_spinner && negb _)];
      rewrite ?colored_stderr_spinner_start; by destruct (truthy desc). }
  rewrite Hc.
  set (no_color := negb (colored_stderr self)).
  set (self5 := with_running_subproc (Some (mkPopen new_pid None c))
                  (log (EvPopen cmd (negb so) no_color) self3)).
  destruct (poll_loop_out no_color (polls c) "" self5) as (P1 & _).
  destruct (poll_loop no_color (polls c) "" self5) as [self6 out].
  cbn [fst snd] in P1. subst out.
  assert (Hout : forall lines acc,
            fold_left (fun acc line =>
                         (acc ++ (if no_color then clear_color line
                                  else line))%string) lines acc
            = fold_left (fun acc line =>
                           (acc ++ (if colored_stderr self then line
                                    else clear_color line))%string)
                        lines acc).
  { intros lines. induction lines as [|l lines IH]; intros acc; [done|].
    cbn [fold_left]. rewrite IH. subst no_color.
    by destruct (colored_stderr self). }
  rewrite Hout.
  assert (Htail : (if no_color then clear_color (tail c) else tail c)
                  = (if colored_stderr self then tail c
                     else clear_color (tail c))).
  { subst no_color. by destruct (colored_stderr self). }
  rewrite Htail. fold (collected (fun line => if colored_stderr self then line
                                              else clear_color line) c).
  set (self8 := spinner_stop (with_running_subproc None self6)).
  assert (H8 : running_subproc self8 = None).
  { subst self8. by rewrite running_subproc_spinner_stop. }
  match goal with |- context [if truthy ?t && debug_mode self8 then ?a else ?b] =>
    set (self9 := if truthy t && debug_mode self8 then a else b) end.
  assert (H9 : running_subproc self9 = None).
  { subst self9. by destruct (truthy _ && debug_mode self8). }
  clearbody self9.
  destruct (decide (exit_code c <> EX_OK)) as [Hne|He].
  - rewrite bool_decide_eq_true_2 by done. cbn [andb].
    unfold exit_with_error, exit.
    destruct (decide (exit_code c = EX_OK)) as [?|_]; [done|].
    destruct exit_on_error; cbn [fst snd];
      rewrite ?running_subproc_spinner_stop; by cbn.
  - rewrite bool_decide_eq_false_2 by done. cbn [andb fst snd].
    by destruct (truthy msg_on_success).
Qed.

(** X14: whenever [run_cmd] returns, what it returns is everything the
    child wrote, in order: each line read at each turn of the polling
    loop and then what was left in the pipe at the exit, with
    [clear_color] applied to each piece when standard error is not
    coloured and nothing else changed or dropped.  It returns unless the
    child failed and [exit_on_error] is set. *)
Theorem run_cmd_returns_all_output (cmd : list string)
    (desc msg_on_success : string)
    (stderr_out with_spinner exit_on_error : bool) (level : Level)
    (c : Child) (new_pid : Z) (self : Self) :
  exit_code c = EX_OK \/ exit_on_error = false ->
  (run_cmd cmd desc msg_on_success stderr_out with_spinner exit_on_error
     level c new_pid self).2
  = Ret (collected (fun line => if colored_stderr self then line
                                else clear_color line) c).
Proof.
  intros Hret.
  destruct (run_cmd_result cmd desc msg_on_success stderr_out with_spinner
              exit_on_error level c new_pid self) as [_ ->].
  destruct Hret as [He| ->]; [|by rewrite andb_false_r].
  by rewrite bool_decide_eq_false_2 by (by intros ?).
Qed.

(** X15: once [run_cmd] is past its polling loop no child is registered
    as running any more, whether it returns or exits, so that a
    termination signal dispatched later signals no process group: the
    handler sends nothing, waits for nothing, and exits with 128 plus
    the signal number. *)
Theorem no_signal_to_a_finished_child (cmd : list string)
    (desc msg_on_success : string)
    (stderr_out with_spinner exit_on_error : bool) (level : Level)
    (c : Child) (new_pid : Z) (self : Self) (signum : Z) (frame : nat) :
  0 < signum ->
  let after := (run_cmd cmd desc msg_on_success stderr_out with_spinner
                  exit_on_error level c new_pid self).1 in
  running_subproc after = None
  /\ supervision (trace (termination_signal_handler strsignal signum frame
                           after).1)
     = supervision (trace after)
  /\ (termination_signal_handler strsignal signum frame after).2
     = Exit (EXIT_SIG_CODE_SHIFT + signum).
Proof.
  intros Hsig after.
  destruct (run_cmd_result cmd desc msg_on_success stderr_out with_spinner
              exit_on_error level c new_pid self) as [Hrun _].
  fold after in Hrun. split; [done|]. clearbody after.
  unfold termination_signal_handler, exit_with_error, exit,
    get_sig_exit_code, spinner_stop, supervision.
  destruct (decide (EXIT_SIG_CODE_SHIFT + signum = EX_OK)) as [He|_];
    [unfold EXIT_SIG_CODE_SHIFT, EX_OK in He; lia|].
  destruct after as [ifs fd1 fd2 tty sp dbg col rs fw bl tr].
  cbn [running_subproc] in Hrun. subst rs.
  destruct sp; cbn [log running_subproc has_spinner trace fst snd];
    rewrite <- ?app_assoc, List.filter_app; cbn; by rewrite app_nil_r.
Qed.

End CollectedOutput.

Section HandshakeFacts.

Import NixosUpgrade.

Local Open Scope string_scope.
Local Open Scope list_scope.

(** X16: whichever way the handshake ends, by the token, by another
    line or by the retries running out, [write_to_pipe_check] has put the
    inbound descriptor back in blocking mode when it returns or exits,
    and it has written exactly one request. *)
Theorem handshake_restores_blocking (cmd : list string) (self : Self) :
  blocking (write_to_pipe_check cmd self).1 = true
  /\ writes (trace (write_to_pipe_check cmd self).1)
     = writes (trace self)
       ++ [wire_record (encode (IFS self)) (List.map encode cmd)].
Proof.
  split; [|apply write_to_pipe_check_spec].
  unfold write_to_pipe_check.
  destruct (pong_loop ATTEMPTS "" _) as [self3 pong].
  destruct (decide (pong = PONG)); [done|].
  unfold exit_with_error, exit, spinner_stop.
  destruct (decide (EXIT_ERR_CODE = EX_OK)) as [?|_]; [done|].
  unfold set_blocking. cbn [log has_spinner].
  by destruct (has_spinner self3).
Qed.

Lemma pong_loop_first (n : nat) (pong l : string)
    (rest : list (option string)) (self : Self) :
  readline (blocking self) (from_worker self) = (l, rest) ->
  truthy (rstrip l) = true ->
  pong_loop (S n) pong self
  = (log (EvReadline (rstrip l))
       (with_from_worker rest (log (EvSleep PONG_RETRY_MS) self)),
     rstrip l).
Proof.
  intros Hread Ht. cbn [pong_loop]. unfold readline_from_worker.
  cbn [log blocking from_worker]. by rewrite Hread, Ht.
Qed.

(** A privileged task against a worker that answers at once. *)
Lemma run_privileged_task_answered (name : string) (args : list string)
    (self : Self) (tok line : string) (rest : list (option string)) :
  rstrip tok = PONG ->
  from_worker self = Some tok :: Some line :: rest ->
  run_privileged_task name args self
  = (mkSelf (IFS self) (PY_SH_FD self) (SH_PY_FD self) (STDERR_IS_A_TTY self)
       (has_spinner self) (debug_mode self) (colored_stderr self)
       (running_subproc self) rest true
       (trace self
        ++ [EvWrite (PY_SH_FD self)
              (encode (join (IFS self) (name :: args) ++ NL)%string);
            EvSetBlocking (SH_PY_FD self) false;
            EvSleep PONG_RETRY_MS;
            EvReadline PONG;
            EvSetBlocking (SH_PY_FD self) true;
            EvReadline (rstrip line)]),
     Ret (rstrip line)).
Proof.
  intros Htok Hstream.
  destruct self as [ifs fd1 fd2 tty sp dbg col rs fw bl tr].
  cbn [from_worker] in Hstream. subst fw.
  unfold run_privileged_task, write_to_pipe_check.
  change ATTEMPTS with (S 99).
  rewrite (pong_loop_first 99 "" tok (Some line :: rest));
    [|reflexivity|by rewrite Htok].
  rewrite Htok. destruct (decide (PONG = PONG)); [|done].
  unfold readline_from_worker, set_blocking, write_to_pipe.
  cbn [log with_from_worker blocking from_worker readline trace IFS PY_SH_FD
       SH_PY_FD STDERR_IS_A_TTY has_spinner debug_mode colored_stderr
       running_subproc].
  unfold log, with_from_worker.
  cbn [trace IFS PY_SH_FD SH_PY_FD STDERR_IS_A_TTY has_spinner debug_mode
       colored_stderr running_subproc from_worker blocking].
  by rewrite <- !app_assoc.
Qed.

Lemma upper_is_Y (a : string) : upper a = "Y" <-> a = "y" \/ a = "Y".
Proof.
  split.
  - destruct a as [|c [|c' r]]; [done| |done].
    cbn [upper]. intros H. injection H as H.
    destruct c as [[] [] [] [] [] [] [] []]; vm_compute in H;
      try discriminate; auto.
  - by intros [-> | ->].
Qed.

End HandshakeFacts.

Section OperationFacts.

Import NixosUpgrade.

Local Open Scope string_scope.
Local Open Scope list_scope.

Ltac project_self :=
  cbn [log with_from_worker trace IFS PY_SH_FD SH_PY_FD STDERR_IS_A_TTY
       has_spinner debug_mode colored_stderr running_subproc from_worker
       blocking fst snd].

(** X17: [build_nixos_system] sends the one request
    [build<SEP>TMP_DIR#nixosConfigurations.HOST.config.system.build.toplevel]
    and, against a worker that answers the token and a result at once:
    when the result is [OK] it reads one more line, waiting for it, and
    returns it stripped as the closure, and when the worker has closed
    the stream instead the closure is the empty string and no error is
    raised; when the result is anything else it exits with code 1 and
    reads no further line. *)
Theorem build_reads_closure_after_ok (repr : string -> string)
    (TMP_DIR HOSTNAME : string) (self : Self) (tok result : string)
    (more : list (option string)) :
  rstrip tok = PONG ->
  from_worker self = Some tok :: Some result :: more ->
  let r := build_nixos_system repr TMP_DIR HOSTNAME self in
  writes (trace r.1)
  = writes (trace self)
    ++ [encode ("build" ++ IFS self ++ TMP_DIR ++ "#nixosConfigurations."
                ++ HOSTNAME ++ ".config.system.build.toplevel" ++ NL)%string]
  /\ (rstrip result = "OK" ->
      forall (j : nat) (closure : string) (rest : list (option string)),
        more = replicate j None ++ Some closure :: rest ->
        r.2 = Ret (rstrip closure) /\ from_worker r.1 = rest)
  /\ (rstrip result = "OK" -> more = [] -> r.2 = Ret "")
  /\ (rstrip result <> "OK" ->
      r.2 = Exit EXIT_ERR_CODE /\ from_worker r.1 = more
      /\ reads (trace r.1) = reads (trace self) ++ [PONG; rstrip result]).
Proof.
  intros Htok Hstream r. subst r. unfold build_nixos_system.
  match goal with |- context [run_privileged_task ?n ?a ?s] =>
    rewrite (run_privileged_task_answered n a s tok result more Htok)
      by exact Hstream end.
  project_self.
  destruct (decide (rstrip result = "OK")) as [Hok|Hbad].
  - unfold readline_from_worker. project_self.
    split; [|split; [|split; [|done]]].
    + destruct (readline true more) as [l rest0]. project_self.
      rewrite !writes_app. cbn [writes omap]. rewrite !app_nil_r.
      do 2 f_equal. cbn [join]. by rewrite !append_assoc.
    + intros _ j closure rest ->. rewrite readline_after_silence.
      by project_self.
    + intros _ ->. reflexivity.
  - unfold exit_with_error, exit, spinner_stop.
    destruct (decide (EXIT_ERR_CODE = EX_OK)) as [?|_]; [done|].
    project_self.
    split; [|split; [done|split; [done|]]].
    + destruct (has_spinner self); project_self; cbn [truthy];
        project_self; rewrite !writes_app; cbn [writes omap];
        rewrite !app_nil_r; do 2 f_equal; cbn [join];
        by rewrite !append_assoc.
    + intros _.
      destruct (has_spinner self); project_self; cbn [truthy];
        project_self; rewrite !reads_app; cbn [reads omap];
        rewrite ?app_nil_r; by repeat split.
Qed.

(** X18: [upgrade_system] asks the worker for nothing unless the answer
    is [y] or [Y].  With [--assume-no], also together with
    [--assume-yes], with any other typed answer, and at the end of input,
    it sends no request, reads nothing from the worker, writes at most
    the prompt, and exits with the success code. *)
Theorem upgrade_declined_sends_nothing (NAME : string)
    (STDIN_IS_A_TTY STDOUT_IS_A_TTY : bool) (COMMIT_MSG_W_FD : Z)
    (changes_stat_str : string) (args : Args) (diff closure : string)
    (typed : option string) (self : Self) :
  assume_no args = true
  \/ (assume_yes args = false
      /\ forall a, typed = Some a -> a <> "y" /\ a <> "Y") ->
  let r := upgrade_system NAME STDIN_IS_A_TTY STDOUT_IS_A_TTY COMMIT_MSG_W_FD
             changes_stat_str args diff closure typed self in
  let prompt := (changes_stat_str ++ ". " ++ "Upgrade system? ([n]/y): ")%string in
  r.2 = Exit EX_OK
  /\ from_worker r.1 = from_worker self
  /\ reads (trace r.1) = reads (trace self)
  /\ writes (trace r.1)
     = writes (trace self)
       ++ (if STDIN_IS_A_TTY && negb (assume_no args || assume_yes args)
              && STDOUT_IS_A_TTY
           then [encode prompt] else []).
Proof.
  intros Hdecl r prompt. subst r prompt. unfold upgrade_system.
  match goal with |- context [decide (upper ?a = "Y")] =>
    destruct (decide (upper a = "Y")) as [Hy|_] end.
  { exfalso. apply upper_is_Y in Hy.
    destruct Hdecl as [Hno|[Hyes Htyped]].
    - rewrite Hno in Hy. by destruct Hy.
    - rewrite Hyes in Hy. destruct (assume_no args); [by destruct Hy|].
      destruct typed as [a|]; [|by destruct Hy].
      destruct (Htyped a eq_refl). by destruct Hy. }
  unfold exit_with_success, exit, spinner_stop.
  destruct self as [ifs fd1 fd2 tty sp dbg col rs fw bl tr].
  destruct args as [an ay nc cm]. cbn [assume_no assume_yes].
  destruct STDIN_IS_A_TTY, STDOUT_IS_A_TTY, an, ay, tty, sp;
    cbn [andb orb negb]; project_self; cbn [truthy]; project_self;
    rewrite <- ?app_assoc; rewrite ?reads_app, ?writes_app;
    cbn [reads writes omap app]; by rewrite ?app_nil_r.
Qed.

(** X19: when the answer is [y] or [Y], [upgrade_system] sends the
    upgrade request; against a worker that answers at once, a result
    other than [OK] makes it exit with code 1 without writing a commit
    message or asking for a commit; with [OK] and [--no-commit] it exits
    with the success code, again without a commit; with [OK] and no
    [--no-commit] it writes the commit message, then asks for the commit,
    and exits with the success code whatever the commit answers: a failed
    commit is reported at the error level and does not change the exit
    code. *)
Theorem upgrade_accepted_protocol (NAME : string)
    (STDIN_IS_A_TTY STDOUT_IS_A_TTY : bool) (COMMIT_MSG_W_FD : Z)
    (changes_stat_str : string) (args : Args) (diff closure : string)
    (typed : option string) (self : Self) (tok result : string)
    (more : list (option string)) :
  assume_no args = false ->
  assume_yes args = true \/ typed = Some "y" \/ typed = Some "Y" ->
  rstrip tok = PONG ->
  from_worker self = Some tok :: Some result :: more ->
  let r := upgrade_system NAME STDIN_IS_A_TTY STDOUT_IS_A_TTY COMMIT_MSG_W_FD
             changes_stat_str args diff closure typed self in
  let prompt :=
    (changes_stat_str ++ ". " ++ "Upgrade system? ([n]/y): ")%string in
  let prompted :=
    if STDIN_IS_A_TTY && negb (assume_yes args) && STDOUT_IS_A_TTY
    then [encode prompt] else [] in
  let request := encode ("upgrade" ++ IFS self ++ closure ++ NL)%string in
  (rstrip result <> "OK" ->
     r.2 = Exit EXIT_ERR_CODE
     /\ writes (trace r.1) = writes (trace self) ++ prompted ++ [request]
     /\ from_worker r.1 = more)
  /\ (rstrip result = "OK" -> no_commit args = true ->
      r.2 = Exit EX_OK
      /\ writes (trace r.1) = writes (trace self) ++ prompted ++ [request]
      /\ from_worker r.1 = more)
  /\ (rstrip result = "OK" -> no_commit args = false ->
      forall (tok2 commit : string) (rest : list (option string)),
        rstrip tok2 = PONG -> more = Some tok2 :: Some commit :: rest ->
        r.2 = Exit EX_OK
        /\ writes (trace r.1)
           = writes (trace self) ++ prompted
             ++ [request; encode (get_commit_msg NAME args diff);
                 encode ("commit" ++ NL)%string]
        /\ from_worker r.1 = rest
        /\ error_logs (trace r.1)
           = error_logs (trace self)
             ++ (if decide (rstrip commit = "OK") then []
                 else [EvLog ERROR
                         "flake repo committing subprocess error"])).
Proof.
  intros Hno Hans Htok Hstream r prompt prompted request.
  subst r prompt prompted request.
  destruct self as [ifs fd1 fd2 tty sp dbg col rs fw bl tr].
  destruct args as [an ay nc cm].
  cbn [assume_no assume_yes no_commit from_worker IFS trace] in *.
  subst an fw. unfold upgrade_system. cbn [assume_no assume_yes no_commit].
  match goal with |- context [decide (upper ?a = "Y")] =>
    destruct (decide (upper a = "Y")) as [_|Hn] end.
  2: { exfalso. apply Hn. destruct Hans as [->|[->| ->]]; [done|..];
       by destruct ay. }
  cbn [orb].
  assert (Hup : forall s : Self,
            from_worker s = Some tok :: Some result :: more ->
            run_privileged_task "upgrade" [closure] s
            = (mkSelf (IFS s) (PY_SH_FD s) (SH_PY_FD s) (STDERR_IS_A_TTY s)
                 (has_spinner s) (debug_mode s) (colored_stderr s)
                 (running_subproc s) more true
                 (trace s
                  ++ [EvWrite (PY_SH_FD s)
                        (encode (join (IFS s) ["upgrade"; closure] ++ NL)%string);
                      EvSetBlocking (SH_PY_FD s) false;
                      EvSleep PONG_RETRY_MS; EvReadline PONG;
                      EvSetBlocking (SH_PY_FD s) true;
                      EvReadline (rstrip result)]),
               Ret (rstrip result))).
  { intros s Hs.
    exact (run_privileged_task_answered _ _ s tok result more Htok Hs). }
  destruct STDIN_IS_A_TTY, STDOUT_IS_A_TTY, ay, tty;
    cbn [andb orb negb]; project_self;
    (rewrite Hup by reflexivity); clear Hup; project_self;
    (split; [|split]).
  all: try (intros Hbad; rewrite (bool_decide_eq_false_2 _ Hbad),
              andb_false_r;
            destruct (decide (rstrip result = "OK")) as [?|_]; [done|];
            unfold exit_with_error, exit, spinner_stop;
            destruct (decide (EXIT_ERR_CODE = EX_OK)) as [?|_]; [done|];
            destruct sp; project_self; cbn [truthy]; project_self;
            (split; [reflexivity|]); (split; [|reflexivity]);
            rewrite <- ?app_assoc; rewrite ?writes_app;
            cbn [writes omap app join]; rewrite ?app_nil_r, ?append_assoc;
            reflexivity).
  all: try (intros Hok ->; cbn [negb andb];
            destruct (decide (rstrip result = "OK")) as [_|?]; [|done];
            unfold exit_with_success, exit, spinner_stop;
            destruct sp; project_self; cbn [truthy]; project_self;
            (split; [reflexivity|]); (split; [|reflexivity]);
            rewrite <- ?app_assoc; rewrite ?writes_app;
            cbn [writes omap app join]; rewrite ?app_nil_r, ?append_assoc;
            reflexivity).
  all: intros Hok -> tok2 commit rest Htok2 ->;
    rewrite (bool_decide_eq_true_2 _ Hok); cbn [negb andb];
    match goal with |- context [run_privileged_task "commit" [] ?s0] =>
      rewrite (run_privileged_task_answered "commit" [] s0 tok2 commit rest
                 Htok2 eq_refl) end;
    project_self;
    destruct (decide (rstrip result = "OK")) as [_|?]; [|done];
    unfold exit_with_success, exit, spinner_stop;
    destruct (decide (rstrip commit = "OK")) as [Hc|Hc];
    destruct sp; project_self; cbn [truthy]; project_self;
    (split; [reflexivity|]); (split; [|split; [reflexivity|]]);
    rewrite <- ?app_assoc; rewrite ?writes_app; unfold error_logs;
    rewrite ?List.filter_app;
    cbn [writes omap app join List.filter is_error_log];
    rewrite ?app_nil_r, ?append_assoc; reflexivity.
Qed.

End OperationFacts.

(** ** The further properties of the program at concrete inputs *)

Section ProgramExamples.

Import NixosUpgrade.

Local Open Scope string_scope.
Local Open Scope list_scope.

Lemma rstrip_strips_trailing_whitespace_only_witness :
  all_chars is_space (" " ++ NL) = true
  /\ is_space "K" = false
  /\ rstrip (("O" ++ "K") ++ " " ++ NL) = "OK".
Proof.
  split; [reflexivity|]. split; [reflexivity|].
  apply (rstrip_strips_trailing_whitespace_only "O" (" " ++ NL) "K"
           eq_refl eq_refl).
Defined.

Lemma split_join_round_trip_witness :
  Forall (fun g => all_chars (fun c => negb (Ascii.eqb c "|")) g = true)
         ["build"; "/tmp#cfg"]
  /\ split "|" (join "|" ["build"; "/tmp#cfg"]) = ["build"; "/tmp#cfg"].
Proof.
  assert (H : Forall (fun g => all_chars (fun c => negb (Ascii.eqb c "|")) g
                               = true) ["build"; "/tmp#cfg"])
    by (repeat constructor).
  split; [exact H|].
  apply (split_join_round_trip "|" "" "build" ["/tmp#cfg"] H).
Defined.

Lemma process_diff_drops_two_lines_witness :
  all_chars (fun c => negb (Ascii.eqb c (ascii_of_nat 10))) "<<< current"
  = true
  /\ all_chars (fun c => negb (Ascii.eqb c (ascii_of_nat 10))) ">>> result"
     = true
  /\ process_diff ("<<< current" ++ NL ++ ">>> result" ++ NL
                   ++ "[U.] vim" ++ NL ++ "[A.] git")
     = ("[U.] vim" ++ NL ++ "[A.] git")%string.
Proof.
  split; [reflexivity|]. split; [reflexivity|].
  apply (process_diff_drops_two_lines "<<< current" ">>> result"
           ("[U.] vim" ++ NL ++ "[A.] git") eq_refl eq_refl).
Defined.

Lemma clear_color_strips_codes_only_witness :
  no_escape "[U.] " = true
  /\ all_chars is_param "1;31" = true
  /\ "1;31" <> ""
  /\ clear_color ("[U.] " ++ sgr "1;31" ++ "vim") = "[U.] vim".
Proof.
  split; [reflexivity|]. split; [reflexivity|]. split; [discriminate|].
  assert (Hne : "1;31" <> "") by discriminate.
  destruct (clear_color_strips_codes_only "[U.] " "1;31" "vim"
              eq_refl eq_refl Hne) as (_ & H & _).
  rewrite H. reflexivity.
Defined.

Lemma verbosity_never_hides_errors_witness :
  -3 <= 2
  /\ isEnabledFor (config_verbosity (-3)) ERROR = true
  /\ debug_mode_of 2 = true.
Proof.
  assert (H : -3 <= 2) by lia. split; [exact H|].
  destruct (verbosity_never_hides_errors (-3) 2 ERROR H) as (H1 & _).
  destruct (verbosity_never_hides_errors 2 2 ERROR ltac:(lia))
    as (_ & _ & _ & H4).
  split; [exact H1|]. apply H4. lia.
Defined.

Lemma run_cmd_returns_all_output_witness :
  (exit_code failing_child = EX_OK \/ false = false)
  /\ (run_cmd clear_color ["nvd"; "diff"] "" "" false true false INFO
        failing_child 4242 (program [])).2 = Ret "buildingerror".
Proof.
  split; [by right|].
  rewrite (run_cmd_returns_all_output clear_color ["nvd"; "diff"] "" ""
             false true false INFO failing_child 4242 (program [])
             (or_intror eq_refl)).
  reflexivity.
Defined.

Lemma no_signal_to_a_finished_child_witness :
  0 < SIGTERM
  /\ (termination_signal_handler (fun _ => "Terminated") SIGTERM 0%nat
        (run_cmd clear_color ["nvd"; "diff"] "" "" false true false INFO
           failing_child 4242 (program [])).1).2 = Exit 143.
Proof.
  split; [reflexivity|].
  apply (no_signal_to_a_finished_child clear_color (fun _ => "Terminated")
           ["nvd"; "diff"] "" "" false true false INFO failing_child 4242
           (program []) SIGTERM 0%nat eq_refl).
Defined.

Lemma build_reads_closure_after_ok_witness :
  rstrip (PONG ++ NL) = PONG
  /\ from_worker (program [Some (PONG ++ NL)%string; Some ("OK" ++ NL)%string;
                           None; Some ("/nix/store/abc" ++ NL)%string])
     = Some (PONG ++ NL)%string :: Some ("OK" ++ NL)%string
       :: [None; Some ("/nix/store/abc" ++ NL)%string]
  /\ (build_nixos_system (fun s => s) "/tmp" "host"
        (program [Some (PONG ++ NL)%string; Some ("OK" ++ NL)%string;
                  None; Some ("/nix/store/abc" ++ NL)%string])).2
     = Ret "/nix/store/abc".
Proof.
  split; [reflexivity|]. split; [reflexivity|].
  destruct (build_reads_closure_after_ok (fun s => s) "/tmp" "host"
              (program [Some (PONG ++ NL)%string; Some ("OK" ++ NL)%string;
                        None; Some ("/nix/store/abc" ++ NL)%string])
              (PONG ++ NL) ("OK" ++ NL)
              [None; Some ("/nix/store/abc" ++ NL)%string] eq_refl eq_refl)
    as (_ & H & _).
  destruct (H eq_refl 1%nat ("/nix/store/abc" ++ NL)%string [] eq_refl)
    as [Hr _].
  exact Hr.
Defined.

Lemma upgrade_declined_sends_nothing_witness :
  (assume_no (mkArgs true true false "") = true
   \/ (assume_yes (mkArgs true true false "") = false
       /\ forall a, Some "y" = Some a -> a <> "y" /\ a <> "Y"))
  /\ (upgrade_system "nixos-upgrade" true true 5 "2 package changes"
        (mkArgs true true false "") "" "/nix/store/abc" (Some "y")
        (program ok_worker)).2 = Exit EX_OK.
Proof.
  split; [by left|].
  apply (upgrade_declined_sends_nothing "nixos-upgrade" true true 5
           "2 package changes" (mkArgs true true false "") ""
           "/nix/store/abc" (Some "y") (program ok_worker)
           (or_introl eq_refl)).
Defined.

Lemma upgrade_accepted_protocol_witness :
  assume_no yes_args = false
  /\ (assume_yes yes_args = true \/ None = Some "y" \/ None = Some "Y")
  /\ rstrip (PONG ++ NL) = PONG
  /\ from_worker (program (upgrade_worker "OK" "FAILED"))
     = Some (PONG ++ NL)%string :: Some ("OK" ++ NL)%string
       :: [Some (PONG ++ NL)%string; Some ("FAILED" ++ NL)%string]
  /\ (upgrade_system "nixos-upgrade" true true 5 "2 package changes"
        yes_args "" "/nix/store/abc" None
        (program (upgrade_worker "OK" "FAILED"))).2 = Exit EX_OK.
Proof.
  split; [reflexivity|]. split; [by left|]. split; [reflexivity|].
  split; [reflexivity|].
  destruct (upgrade_accepted_protocol "nixos-upgrade" true true 5
              "2 package changes" yes_args "" "/nix/store/abc" None
              (program (upgrade_worker "OK" "FAILED"))
              (PONG ++ NL) ("OK" ++ NL)
              [Some (PONG ++ NL)%string; Some ("FAILED" ++ NL)%string]
              eq_refl (or_introl eq_refl) eq_refl eq_refl)
    as (_ & _ & H).
  destruct (H eq_refl eq_refl (PONG ++ NL)%string ("FAILED" ++ NL)%string []
              eq_refl eq_refl) as [Hr _].
  exact Hr.
Defined.

End ProgramExamples.
